(** * Redirect resolution of the Edge Config redirects middleware

    A shallow embedding of [EdgeConfigRedirectsMiddleware]
    (edge-config-redirects middleware of the sxastarter application):
    [getHandler], [edgeConfigHandler] with its inner [createResponse], and
    [getRedirects].

    JavaScript strings are Rocq strings.  Code that can raise returns a
    [result]; the [try]/[catch] of [getHandler] is the only handler.
    What the middleware takes from its platform (the regular-expression
    engine and the [regex-parser] package, [URLSearchParams], the URL
    parser behind [url.href] and [url.pathname], [decodeURIComponent],
    [toLowerCase]) is the interface [Platform]; [Reference] gives one executable instance of it,
    on which the examples of this file are run.

    [Publish] embeds the API route that fills the store the middleware
    reads, [handler] of [redirect-publish-handler.ts], over a state of
    the response object and a trace of the calls to its two services. *)

From Stdlib Require Import String Ascii List Bool Arith ZArith Lia.
Import ListNotations.
Local Open Scope list_scope.
Local Open Scope string_scope.

Set Implicit Arguments.

(** ** Exceptions *)

Inductive JsError : Type :=
| SyntaxError      (* RegExp constructor, JSON.parse *)
| TypeError        (* call of a non-function, invalid URL *)
| URIError         (* decodeURIComponent *)
| EdgeConfigError. (* the promise of [get] rejects *)

Inductive result (A : Type) : Type :=
| Ok (a : A)
| Throw (e : JsError).

Arguments Ok {A} a.
Arguments Throw {A} e.

Definition bind {A B : Type} (c : result A) (k : A -> result B) : result B :=
  match c with
  | Ok a => k a
  | Throw e => Throw e
  end.

Notation "x <- c ;; k" := (bind c (fun x => k))
  (at level 61, c at next level, right associativity).

(** ** JavaScript string primitives used by the middleware *)

Module Js.

(** [s.startsWith(p)] *)
Fixpoint startsWith (p s : string) : bool :=
  match p, s with
  | EmptyString, _ => true
  | String a p', String b s' => Ascii.eqb a b && startsWith p' s'
  | String _ _, EmptyString => false
  end.

(** [s] without the prefix [p], when it has it. *)
Fixpoint stripPrefix (p s : string) : option string :=
  match p, s with
  | EmptyString, _ => Some s
  | String a p', String b s' => if Ascii.eqb a b then stripPrefix p' s' else None
  | String _ _, EmptyString => None
  end.

(** [s] without the suffix [suf], when it has it. *)
Fixpoint stripSuffix (suf s : string) : option string :=
  if String.eqb s suf then Some EmptyString
  else match s with
       | EmptyString => None
       | String c s' => option_map (String c) (stripSuffix suf s')
       end.

(** [s.includes(needle)] *)
Fixpoint includes (needle s : string) : bool :=
  startsWith needle s ||
  match s with
  | EmptyString => false
  | String _ s' => includes needle s'
  end.

(** [s.split(sep)] for a separator of one character. *)
Fixpoint split (sep : ascii) (s : string) : list string :=
  match s with
  | EmptyString => [EmptyString]
  | String c s' =>
      if Ascii.eqb c sep then EmptyString :: split sep s'
      else match split sep s' with
           | h :: t => String c h :: t
           | [] => [String c EmptyString]
           end
  end.

(** [s.replace(pat, rep)] where [pat] is a string and [rep] holds no [$]:
    the first occurrence only. *)
Fixpoint replaceFirst (pat rep s : string) : string :=
  match stripPrefix pat s with
  | Some rest => rep ++ rest
  | None =>
      match s with
      | EmptyString => EmptyString
      | String c s' => String c (replaceFirst pat rep s')
      end
  end.

(** [regions.includes(x)] on an array of strings. *)
Definition arrayIncludes (l : list string) (x : string) : bool :=
  existsb (String.eqb x) l.

Definition isAsciiLetter (c : ascii) : bool :=
  let n := nat_of_ascii c in
  (((65 <=? n) && (n <=? 90)) || ((97 <=? n) && (n <=? 122)))%nat.

Definition isDigit (c : ascii) : bool :=
  let n := nat_of_ascii c in ((48 <=? n) && (n <=? 57))%nat.

Definition digitValue (c : ascii) : nat := nat_of_ascii c - 48.

(** Lower case of an ASCII letter; every other character is kept.  This
    is the case folding of a regular expression with the [i] flag and
    without the [u] flag, which never identifies a character outside
    ASCII with one inside. *)
Definition lowerAscii (c : ascii) : ascii :=
  let n := nat_of_ascii c in
  if ((65 <=? n) && (n <=? 90))%nat then ascii_of_nat (n + 32) else c.

Fixpoint lowerAsciiString (s : string) : string :=
  match s with
  | EmptyString => EmptyString
  | String c s' => String (lowerAscii c) (lowerAsciiString s')
  end.

(** [stripPrefix] up to ASCII case; [p] is given in lower case. *)
Fixpoint stripPrefixCi (p s : string) : option string :=
  match p, s with
  | EmptyString, _ => Some s
  | String a p', String b s' =>
      if Ascii.eqb a (lowerAscii b) then stripPrefixCi p' s' else None
  | String _ _, EmptyString => None
  end.

Definition capture (caps : list (option string)) (n : nat) : string :=
  match nth_error caps (n - 1) with
  | Some (Some c) => c
  | _ => EmptyString
  end.

(** GetSubstitution of ECMA-262 without named groups: the expansion of
    the replacement template [t] of [String.prototype.replace] for a
    match [matched] found between [before] and [after], with captures
    [caps]. *)
Fixpoint getSubstitution (matched before after : string)
    (caps : list (option string)) (t : string) {struct t} : string :=
  let go := getSubstitution matched before after caps in
  let m := List.length caps in
  match t with
  | EmptyString => EmptyString
  | String c t1 =>
      if negb (Ascii.eqb c "$") then String c (go t1)
      else
        match t1 with
        | EmptyString => "$"
        | String d1 t2 =>
            if Ascii.eqb d1 "$" then String "$" (go t2)
            else if Ascii.eqb d1 "&" then matched ++ go t2
            else if Ascii.eqb d1 "`" then before ++ go t2
            else if Ascii.eqb d1 "'" then after ++ go t2
            else if isDigit d1 then
              let one :=
                if ((1 <=? digitValue d1) && (digitValue d1 <=? m))%nat
                then capture caps (digitValue d1) ++ go t2
                else String "$" (String d1 (go t2)) in
              match t2 with
              | String d2 t3 =>
                  if isDigit d2 then
                    let nn := 10 * digitValue d1 + digitValue d2 in
                    if (m <? nn)%nat then one
                    else if (1 <=? nn)%nat then capture caps nn ++ go t3
                    else String "$" (String d1 (String d2 (go t3)))
                  else one
              | EmptyString => one
              end
            else String "$" (go t1)
        end
  end.

(** Whether the character [c] occurs in [s]. *)
Fixpoint hasChar (c : ascii) (s : string) : bool :=
  match s with
  | EmptyString => false
  | String x s' => Ascii.eqb x c || hasChar c s'
  end.

End Js.

(** ** Data model *)

(** [RedirectInfo] of [@sitecore-jss/sitecore-jss/site]: one redirect rule
    of the catalog.  [locale] is [None] when the field is absent or null. *)
Module RedirectInfo.
Record t : Type := mk {
  pattern : string;
  target : string;
  redirectType : string;
  isQueryStringPreserved : bool;
  locale : option string
}.

Definition set_pattern (r : t) (p : string) : t :=
  mk p (target r) (redirectType r) (isQueryStringPreserved r) (locale r).
End RedirectInfo.

(** The redirect kinds exported by [@sitecore-jss/sitecore-jss/site]. *)
Definition REDIRECT_TYPE_301 : string := "REDIRECT_301".
Definition REDIRECT_TYPE_302 : string := "REDIRECT_302".
Definition REDIRECT_TYPE_SERVER_TRANSFER : string := "SERVER_TRANSFER".

(** The state of a [NextURL] as far as the middleware reads and writes it.
    [locale] is what the getter returns: the empty string when the URL
    has no locale.  [search] is the query with its leading [?] (or
    empty); [searchParams] is the list of the URL's [URLSearchParams]
    object, which the URL standard keeps next to the query string.
    [i18n_locales] is the list [i18n.locales] of the Next.js
    configuration the URL was built with, empty when there is none. *)
Module NextURL.
Record t : Type := mk {
  origin : string;
  locale : string;
  defaultLocale : string;
  pathname : string;
  search : string;
  searchParams : list (string * string);
  hash : string;
  i18n_locales : list string
}.

(** [url.locale = l]: the setter of [NextURL] throws a [TypeError] when
    the URL has no locale or when the configuration does not list [l]. *)
Definition set_locale (u : t) (l : string) : result t :=
  if String.eqb (locale u) "" || negb (Js.arrayIncludes (i18n_locales u) l)
  then Throw TypeError
  else Ok (mk (origin u) l (defaultLocale u) (pathname u) (search u)
             (searchParams u) (hash u) (i18n_locales u)).

(** [req.nextUrl.clone()]: a pure value is its own copy. *)
Definition clone (u : t) : t := u.
End NextURL.

Record NextRequest : Type := { nextUrl : NextURL.t }.

Record SiteInfo : Type := { name : string; language : string }.

(** The responses the handler builds.  [Pass] is [res || NextResponse.next()],
    the response that lets the request through unchanged. *)
Inductive NextResponse : Type :=
| Redirect (url : string) (status : Z) (statusText : string)
| Rewrite (url : string)
| Pass.

(** What [await get<string>(siteName)] followed by [JSON.parse] makes of
    the Edge Config item (lines 173-174).  A parsed value that is not an
    array is described by what lines 175 and 182 observe of it: whether it
    is truthy, whether its [length] is loosely equal to 0, and whether its
    [length] is truthy; such a value has no callable [find]. *)
Inductive EdgeConfigRead : Type :=
| ReadRejected
| ReadUndefined
| ReadEmptyString
| ReadInvalidJson
| ReadJsonOther (truthy lengthIsZero lengthTruthy : bool)
| ReadJsonArray (redirects : list RedirectInfo.t).

(** ** The platform interface *)

Class Platform : Type := {
  (** a compiled regular expression, fresh ([lastIndex] 0) at each use *)
  RegExp : Type;
  (** [RegExp(source, flags)] *)
  RegExp_new : string -> string -> result RegExp;
  (** [regexParser(input)] of the [regex-parser] package *)
  regexParser : string -> result RegExp;
  (** [re.test(s)] *)
  RegExp_test : RegExp -> string -> bool;
  (** [s.replace(re, template)] *)
  String_replace : string -> RegExp -> string -> string;
  (** [s.toLowerCase()] *)
  String_toLowerCase : string -> string;
  (** the entries of [new URLSearchParams(s)] *)
  URLSearchParams : string -> list (string * string);
  (** the serialisation of a list of entries *)
  URLSearchParams_toString : list (string * string) -> string;
  (** [url.href = s] on the URL [u]: the URL parsed from [s], under the
      configuration of [u] *)
  NextURL_set_href : NextURL.t -> string -> result NextURL.t;
  (** [url.href] *)
  NextURL_href : NextURL.t -> string;
  decodeURIComponent : string -> result string;
  (** the pathname the URL has after [url.pathname = s]: the setter
      parses [s] as a path (leading slash, dot segments,
      percent-encoding) *)
  URL_pathname : string -> string;
  (** a question mark given to the setter is written [%3F]: no pathname
      holds one *)
  URL_pathname_no_query : forall s, Js.hasChar "?" (URL_pathname s) = false
}.

(** Two facts of the platform the proofs use: [replace] returns its
    subject when the expression matches nowhere in it, and an empty query
    has no entries. *)
Class PlatformLaws (P : Platform) : Prop := {
  replace_no_match :
    forall (re : RegExp) (s t : string),
      RegExp_test re s = false -> String_replace s re t = s;
  URLSearchParams_empty : URLSearchParams "" = []
}.

(** The middleware object: the configuration and the methods inherited
    from [RedirectsMiddleware] that the handler calls, and the Edge Config
    store read by [get]. *)
Record Middleware : Type := {
  regions : list string;
  config_disabled : option (NextRequest -> bool);
  isPreview : NextRequest -> bool;
  excludeRoute : string -> bool;
  getLanguage : NextRequest -> string;
  getHostHeader : NextRequest -> option string;
  defaultHostname : string;
  getSite : NextRequest -> SiteInfo;
  get : string -> EdgeConfigRead
}.

(** The same middleware over another store content. *)
Definition withCatalog (mw : Middleware) (item : EdgeConfigRead) : Middleware :=
  {| regions := regions mw;
     config_disabled := config_disabled mw;
     isPreview := isPreview mw;
     excludeRoute := excludeRoute mw;
     getLanguage := getLanguage mw;
     getHostHeader := getHostHeader mw;
     defaultHostname := defaultHostname mw;
     getSite := getSite mw;
     get := fun _ => item |}.

(** ** The regular expressions written in the source *)

Fixpoint dropLetters (s : string) : string :=
  match s with
  | EmptyString => EmptyString
  | String c s' => if Js.isAsciiLetter c then dropLetters s' else s
  end.

(** [REGEXP_ABSOLUTE_URL.test(s)], for [^(?:[a-z]+:)?//] with flag [i]. *)
Definition REGEXP_ABSOLUTE_URL_test (s : string) : bool :=
  Js.startsWith "//" s ||
  (match s with
   | String c _ => Js.isAsciiLetter c
   | EmptyString => false
   end && Js.startsWith "://" (dropLetters s)).

(** The first match of [/\$siteLang/i] in [s], scanning from [before]:
    the text before it, the match and the text after it. *)
Fixpoint siteLangSearch (before s : string) : option (string * string * string) :=
  match Js.stripPrefixCi "$sitelang" s with
  | Some after => Some (before, substring 0 9 s, after)
  | None =>
      match s with
      | EmptyString => None
      | String c s' => siteLangSearch (before ++ String c EmptyString) s'
      end
  end.

(** [REGEXP_CONTEXT_SITE_LANG.test(s)] *)
Definition REGEXP_CONTEXT_SITE_LANG_test (s : string) : bool :=
  match siteLangSearch EmptyString s with
  | Some _ => true
  | None => false
  end.

(** [s.replace(REGEXP_CONTEXT_SITE_LANG, replacement)] *)
Definition REGEXP_CONTEXT_SITE_LANG_replace (s replacement : string) : string :=
  match siteLangSearch EmptyString s with
  | Some (before, matched, after) =>
      before ++ Js.getSubstitution matched before after [] replacement ++ after
  | None => s
  end.

(** [s.replace(/^a|b$/g, '')] for literal [a] and [b]: a leading [a] is
    removed, then a trailing [b] of what is left. *)
Definition stripEnds (a b s : string) : string :=
  let s1 := match Js.stripPrefix a s with
            | Some rest => rest
            | None => s
            end in
  match Js.stripSuffix b s1 with
  | Some rest => rest
  | None => s1
  end.

(** [s.replace(/(?<!\\)\?/g, '\\?')]: a backslash is put before every [?]
    that has none before it in [s]. *)
Fixpoint escapeQuestionMarks (prev : option ascii) (s : string) : string :=
  match s with
  | EmptyString => EmptyString
  | String c s' =>
      let escaped :=
        match prev with
        | Some p => Ascii.eqb p "\"
        | None => false
        end in
      (if Ascii.eqb c "?" && negb escaped then "\?" else String c EmptyString)
      ++ escapeQuestionMarks (Some c) s'
  end.

(** [.replace(/^\/\//, '/')] *)
Definition collapseLeadingSlashes (s : string) : string :=
  match Js.stripPrefix "//" s with
  | Some rest => String "/" rest
  | None => s
  end.

(** ** The middleware *)

Section Middleware.

Context {P : Platform}.

(** *** [getRedirects], lines 168-205 *)

(** Lines 184-190: the rewriting of [redirect.pattern] into the text of a
    regular-expression literal.  The template literal of line 185 cooks
    [\/] to [/]. *)
Definition compilePattern (language pattern : string) : result string :=
  re <- RegExp_new ("^[^]?/" ++ language ++ "/") "gi" ;;
  let pattern := String_replace pattern re "" in
  Ok ("/^/"
      ++ stripEnds "" "$/gi"
           (escapeQuestionMarks None
              (stripEnds "^" "$"
                 (stripEnds "^/" "/$"
                    (stripEnds "/" "/" pattern))))
      ++ "[/]?$/gi").

(** [regexParser(pattern).test(s)] on a fresh expression. *)
Definition testPattern (pattern s : string) : result bool :=
  re <- regexParser pattern ;;
  Ok (RegExp_test re s).

(** The four candidate strings of lines 193-197, in the order tested. *)
Definition candidates (req : NextRequest) : list string :=
  let tragetURL := NextURL.pathname (nextUrl req) in
  let targetQS := NextURL.search (nextUrl req) in
  let locale := NextURL.locale (nextUrl req) in
  [ tragetURL;
    tragetURL ++ targetQS;
    "/" ++ locale ++ tragetURL;
    "/" ++ locale ++ tragetURL ++ targetQS ].

(** The chain of [||] of lines 193-198: the candidates are tested in
    order, each on a freshly parsed expression, up to the first match. *)
Fixpoint testCandidates (pattern : string) (cs : list string) : result bool :=
  match cs with
  | [] => Ok false
  | c :: cs' =>
      b <- testPattern pattern c ;;
      if b then Ok true else testCandidates pattern cs'
  end.

(** Lines 199-201: the locale filter. *)
Definition localeFilter (req : NextRequest) (redirect : RedirectInfo.t) : bool :=
  match RedirectInfo.locale redirect with
  | Some l =>
      if String.eqb l "" then true
      else String.eqb (String_toLowerCase l)
                      (String_toLowerCase (NextURL.locale (nextUrl req)))
  | None => true
  end.

(** The callback of [find], lines 183-203: the redirect with its pattern
    rewritten, and whether it matches the request. *)
Definition matchRedirect (language : string) (req : NextRequest)
    (redirect : RedirectInfo.t) : result (RedirectInfo.t * bool) :=
  pattern <- compilePattern language (RedirectInfo.pattern redirect) ;;
  let redirect := RedirectInfo.set_pattern redirect pattern in
  b <- testCandidates (RedirectInfo.pattern redirect) (candidates req) ;;
  Ok (redirect, b && localeFilter req redirect).

(** [modifyRedirects.find(callback)]: the first element on which the
    callback is true, as the callback left it. *)
Fixpoint find (callback : RedirectInfo.t -> result (RedirectInfo.t * bool))
    (l : list RedirectInfo.t) : result (option RedirectInfo.t) :=
  match l with
  | [] => Ok None
  | redirect :: l' =>
      x <- callback redirect ;;
      if snd x then Ok (Some (fst x)) else find callback l'
  end.

(** [structuredClone]: the callback works on the copy. *)
Definition structuredClone {A : Type} (x : A) : A := x.

Definition getRedirects (mw : Middleware) (req : NextRequest)
    (siteName : string) : result (option RedirectInfo.t) :=
  match get mw siteName with
  | ReadRejected => Throw EdgeConfigError
  | ReadUndefined => Ok None
  | ReadEmptyString => Ok None
  | ReadInvalidJson => Throw SyntaxError
  | ReadJsonOther truthy lengthIsZero lengthTruthy =>
      if negb truthy || lengthIsZero then Ok None
      else if lengthTruthy then Throw TypeError
      else Ok None
  | ReadJsonArray redirects =>
      if (List.length redirects =? 0)%nat then Ok None
      else
        let language := getLanguage mw req in
        let modifyRedirects := structuredClone redirects in
        if negb (List.length modifyRedirects =? 0)%nat
        then find (matchRedirect language req) modifyRedirects
        else Ok None
  end.

(** *** [createResponse], lines 63-147 *)

(** Lines 87-98: the [$siteLang] token of the target. *)
Definition substituteSiteLang (hostname : string) (site : SiteInfo)
    (target : string) : string :=
  if REGEXP_CONTEXT_SITE_LANG_test target
     && negb (REGEXP_ABSOLUTE_URL_test target && Js.includes hostname target)
  then REGEXP_CONTEXT_SITE_LANG_replace target (language site)
  else target.

(** [url.search = s] *)
Definition set_search (u : NextURL.t) (s : string) : NextURL.t :=
  NextURL.mk (NextURL.origin u) (NextURL.locale u) (NextURL.defaultLocale u)
    (NextURL.pathname u) s (URLSearchParams s) (NextURL.hash u)
    (NextURL.i18n_locales u).

(** [url.pathname = p] *)
Definition set_pathname (u : NextURL.t) (p : string) : NextURL.t :=
  NextURL.mk (NextURL.origin u) (NextURL.locale u) (NextURL.defaultLocale u)
    (URL_pathname p) (NextURL.search u) (NextURL.searchParams u) (NextURL.hash u)
    (NextURL.i18n_locales u).

(** [url.searchParams.append(key, val)]: the entry is added at the end of
    the list and the query string is the serialisation of the list. *)
Definition searchParams_append (u : NextURL.t) (kv : string * string) : NextURL.t :=
  let l := (NextURL.searchParams u ++ [kv])%list in
  NextURL.mk (NextURL.origin u) (NextURL.locale u) (NextURL.defaultLocale u)
    (NextURL.pathname u) ("?" ++ URLSearchParams_toString l) l (NextURL.hash u)
    (NextURL.i18n_locales u).

(** Lines 107-111: the first segment of the target as a locale.  The
    assignment of line 109 comes first: when it throws, line 110 is not
    reached. *)
Definition localeOverride (regions : list string) (url : NextURL.t)
    (target : string) : result (NextURL.t * string) :=
  match nth_error (Js.split "/" target) 1 with
  | Some urlFirstPart =>
      if Js.arrayIncludes regions urlFirstPart
      then
        url <- NextURL.set_locale url urlFirstPart ;;
        Ok (url, Js.replaceFirst ("/" ++ urlFirstPart) "" target)
      else Ok (url, target)
  | None => Ok (url, target)
  end.

(** Lines 117-123, on the pieces [target] of the substituted string. *)
Definition assemble (url : NextURL.t) (target : list string) : NextURL.t :=
  let url := set_pathname url (nth 0 target "") in
  match nth_error target 1 with
  | Some q =>
      if String.eqb q "" then url
      else fold_left searchParams_append (URLSearchParams q) url
  | None => url
  end.

(** Lines 105-123: the URL for a target that is not absolute. *)
Definition rewriteRelative (mw : Middleware) (url : NextURL.t)
    (existsRedirect : RedirectInfo.t) (target : string) : result NextURL.t :=
  let source := NextURL.pathname url ++ NextURL.search url in
  let url :=
    set_search url
      (if RedirectInfo.isQueryStringPreserved existsRedirect
       then NextURL.search url else "") in
  x <- localeOverride (regions mw) url target ;;
  let (url, target) := x in
  re <- regexParser (RedirectInfo.pattern existsRedirect) ;;
  Ok (assemble url
        (Js.split "?" (collapseLeadingSlashes (String_replace source re target)))).

(** Lines 100-124: the URL of the response; [target] is the target after
    lines 87-98. *)
Definition rewriteUrl (mw : Middleware) (req : NextRequest)
    (existsRedirect : RedirectInfo.t) (target : string) : result NextURL.t :=
  let url := NextURL.clone (nextUrl req) in
  if REGEXP_ABSOLUTE_URL_test target then NextURL_set_href url target
  else rewriteRelative mw url existsRedirect target.

(** Line 126. *)
Definition redirectUrl (mw : Middleware) (req : NextRequest) (hostname : string)
    (site : SiteInfo) (existsRedirect : RedirectInfo.t) : result string :=
  url <- rewriteUrl mw req existsRedirect
           (substituteSiteLang hostname site (RedirectInfo.target existsRedirect)) ;;
  decodeURIComponent (NextURL_href url).

(** Lines 129-146: the [switch] on the redirect type. *)
Definition classify (redirectType redirectUrl : string) : NextResponse :=
  if String.eqb redirectType REDIRECT_TYPE_301
  then Redirect redirectUrl 301 "Moved Permanently"
  else if String.eqb redirectType REDIRECT_TYPE_302
  then Redirect redirectUrl 302 "Found"
  else if String.eqb redirectType REDIRECT_TYPE_SERVER_TRANSFER
  then Rewrite redirectUrl
  else Pass.

(** Lines 64-73: the switches that leave the request alone. *)
Definition skipped (mw : Middleware) (req : NextRequest) : bool :=
  match config_disabled mw with
  | Some disabled => disabled req
  | None => false
  end
  || (isPreview mw req || excludeRoute mw (NextURL.pathname (nextUrl req))).

Definition hostnameOf (mw : Middleware) (req : NextRequest) : string :=
  match getHostHeader mw req with
  | Some h => if String.eqb h "" then defaultHostname mw else h
  | None => defaultHostname mw
  end.

Definition createResponse (mw : Middleware) (req : NextRequest) : result NextResponse :=
  let hostname := hostnameOf mw req in
  if skipped mw req then Ok Pass
  else
    let site := getSite mw req in
    existsRedirect <- getRedirects mw req (name site) ;;
    match existsRedirect with
    | None => Ok Pass
    | Some existsRedirect =>
        redirectUrl <- redirectUrl mw req hostname site existsRedirect ;;
        Ok (classify (RedirectInfo.redirectType existsRedirect) redirectUrl)
    end.

(** [edgeConfigHandler], lines 47-159: [createResponse] between two debug
    traces. *)
Definition edgeConfigHandler (mw : Middleware) (req : NextRequest) : result NextResponse :=
  createResponse mw req.

(** [getHandler], lines 35-45: whatever [edgeConfigHandler] raises is
    caught and answered by [res || NextResponse.next()]. *)
Definition getHandler (mw : Middleware) (req : NextRequest) : result NextResponse :=
  match edgeConfigHandler mw req with
  | Ok response => Ok response
  | Throw _ => Ok Pass
  end.

(** *** Vocabulary of the statements *)

(** Whether the rewritten pattern of a rule matches one of the four
    candidates (lines 184-198). *)
Definition patternMatches (mw : Middleware) (req : NextRequest)
    (r : RedirectInfo.t) : result bool :=
  p <- compilePattern (getLanguage mw req) (RedirectInfo.pattern r) ;;
  testCandidates p (candidates req).

(** The match condition of a rule: the value of the callback of [find] on
    it, pattern and locale filter together. *)
Definition ruleMatches (mw : Middleware) (req : NextRequest)
    (r : RedirectInfo.t) : result bool :=
  x <- matchRedirect (getLanguage mw req) req r ;; Ok (snd x).

(** A catalog without usable rules: every item but a non-empty array of
    redirects. *)
Definition catalogUnavailable (item : EdgeConfigRead) : Prop :=
  match item with
  | ReadJsonArray (_ :: _) => False
  | _ => True
  end.

(** Line 106: the URL with the query of the request kept or cleared. *)
Definition queryKept (url : NextURL.t) (r : RedirectInfo.t) : NextURL.t :=
  set_search url
    (if RedirectInfo.isQueryStringPreserved r then NextURL.search url else "").

(** Lines 113-123 for the template [template] substituted in [source]. *)
Definition substituteIn (url : NextURL.t) (source : string) (re : RegExp)
    (template : string) : NextURL.t :=
  assemble url
    (Js.split "?" (collapseLeadingSlashes (String_replace source re template))).

(** The first segment of the target, when it is one of the regions
    (lines 107-108). *)
Definition regionSegment (regions : list string) (target : string) : option string :=
  match nth_error (Js.split "/" target) 1 with
  | Some urlFirstPart =>
      if Js.arrayIncludes regions urlFirstPart then Some urlFirstPart else None
  | None => None
  end.

(** The target as lines 107-111 leave it: without its first segment when
    that segment is one of the regions. *)
Definition strippedTarget (regions : list string) (target : string) : string :=
  match regionSegment regions target with
  | Some urlFirstPart => Js.replaceFirst ("/" ++ urlFirstPart) "" target
  | None => target
  end.

(** The entries added by lines 118-123 from the pieces of the
    substituted string. *)
Definition addedParams (pieces : list string) : list (string * string) :=
  match nth_error pieces 1 with
  | Some q => if String.eqb q "" then [] else URLSearchParams q
  | None => []
  end.

End Middleware.

(** ** A reference platform

    An executable instance of [Platform], small enough to read.  Its
    regular expressions are the fragment of the JavaScript syntax made of
    characters, [.], escapes, classes, capturing and [(?:] groups, [|],
    the quantifiers [*], [+], [?] and their lazy forms, [^] and [$], with
    the flags [g] and [i]; a source outside the fragment is answered by
    [Throw SyntaxError], whether JavaScript accepts it or not, and
    captures set in a repeated group are kept from one iteration to the
    next.  The examples of this file stay inside the fragment, on ASCII
    strings without line terminators. *)

Module Reference.

Inductive ClassItem : Type :=
| IChar (c : ascii)
| IRange (lo hi : ascii)
| IDigit (positive : bool)
| IWord (positive : bool)
| ISpace (positive : bool).

Inductive regex : Type :=
| Empty
| Chr (c : ascii)
| Any
| Class (positive : bool) (items : list ClassItem)
| Seq (r1 r2 : regex)
| Alt (r1 r2 : regex)
| Star (greedy : bool) (r : regex)
| Group (i : nat) (r : regex)
| Bol
| Eol.

Definition Plus (greedy : bool) (r : regex) : regex := Seq r (Star greedy r).

Definition Opt (greedy : bool) (r : regex) : regex :=
  if greedy then Alt r Empty else Alt Empty r.

(** *** Syntax *)

Definition isWordChar (c : ascii) : bool :=
  Js.isAsciiLetter c || Js.isDigit c || Ascii.eqb c "_".

Definition isSpaceChar (c : ascii) : bool :=
  let n := nat_of_ascii c in
  ((n =? 32) || ((9 <=? n) && (n <=? 13)))%nat.

Definition isLineTerminator (c : ascii) : bool :=
  let n := nat_of_ascii c in ((n =? 10) || (n =? 13))%nat.

(** The atom or class item written [\c]. *)
Definition escapeItem (c : ascii) : option ClassItem :=
  if Ascii.eqb c "d" then Some (IDigit true)
  else if Ascii.eqb c "D" then Some (IDigit false)
  else if Ascii.eqb c "w" then Some (IWord true)
  else if Ascii.eqb c "W" then Some (IWord false)
  else if Ascii.eqb c "s" then Some (ISpace true)
  else if Ascii.eqb c "S" then Some (ISpace false)
  else if Ascii.eqb c "n" then Some (IChar (ascii_of_nat 10))
  else if Ascii.eqb c "r" then Some (IChar (ascii_of_nat 13))
  else if Ascii.eqb c "t" then Some (IChar (ascii_of_nat 9))
  else if Js.isAsciiLetter c || Js.isDigit c then None
  else Some (IChar c).

Definition atomOfItem (i : ClassItem) : regex :=
  match i with
  | IChar c => Chr c
  | _ => Class true [i]
  end.

(** The items of a class, after its opening bracket and [^]. *)
Fixpoint parseClassItems (fuel : nat) (cs : list ascii)
    : option (list ClassItem * list ascii) :=
  match fuel with
  | O => None
  | S fuel =>
      match cs with
      | [] => None
      | c :: cs1 =>
          if Ascii.eqb c "]" then Some ([], cs1)
          else
            let item :=
              if Ascii.eqb c "\" then
                match cs1 with
                | e :: cs2 =>
                    match escapeItem e with
                    | Some i => Some (i, cs2)
                    | None => None
                    end
                | [] => None
                end
              else Some (IChar c, cs1) in
            match item with
            | None => None
            | Some (IChar lo, dash :: hi :: cs3) =>
                if Ascii.eqb dash "-" && negb (Ascii.eqb hi "]") && negb (Ascii.eqb hi "\")
                then match parseClassItems fuel cs3 with
                     | Some (items, rest) => Some (IRange lo hi :: items, rest)
                     | None => None
                     end
                else match parseClassItems fuel (dash :: hi :: cs3) with
                     | Some (items, rest) => Some (IChar lo :: items, rest)
                     | None => None
                     end
            | Some (i, cs2) =>
                match parseClassItems fuel cs2 with
                | Some (items, rest) => Some (i :: items, rest)
                | None => None
                end
            end
      end
  end.

(** A quantifier after the atom [a], if one is written. *)
Definition parseQuantifier (a : regex) (cs : list ascii) : regex * list ascii :=
  let lazy (cs1 : list ascii) : bool * list ascii :=
    match cs1 with
    | q :: cs2 => if Ascii.eqb q "?" then (false, cs2) else (true, cs1)
    | [] => (true, cs1)
    end in
  match cs with
  | q :: cs1 =>
      if Ascii.eqb q "*" then let (g, rest) := lazy cs1 in (Star g a, rest)
      else if Ascii.eqb q "+" then let (g, rest) := lazy cs1 in (Plus g a, rest)
      else if Ascii.eqb q "?" then let (g, rest) := lazy cs1 in (Opt g a, rest)
      else (a, cs)
  | [] => (a, cs)
  end.

(** The parsers return the expression, the input left and the number of
    capturing groups opened so far. *)
Fixpoint parseDisjunction (fuel : nat) (cs : list ascii) (n : nat)
    : option (regex * list ascii * nat) :=
  match fuel with
  | O => None
  | S fuel =>
      match parseAlternative fuel cs n with
      | Some (r1, bar :: cs1, n1) =>
          if Ascii.eqb bar "|" then
            match parseDisjunction fuel cs1 n1 with
            | Some (r2, cs2, n2) => Some (Alt r1 r2, cs2, n2)
            | None => None
            end
          else Some (r1, bar :: cs1, n1)
      | other => other
      end
  end
with parseAlternative (fuel : nat) (cs : list ascii) (n : nat)
    : option (regex * list ascii * nat) :=
  match fuel with
  | O => None
  | S fuel =>
      match cs with
      | [] => Some (Empty, [], n)
      | c :: _ =>
          if Ascii.eqb c "|" || Ascii.eqb c ")" then Some (Empty, cs, n)
          else
            match parseTerm fuel cs n with
            | Some (r1, cs1, n1) =>
                match parseAlternative fuel cs1 n1 with
                | Some (r2, cs2, n2) => Some (Seq r1 r2, cs2, n2)
                | None => None
                end
            | None => None
            end
      end
  end
with parseTerm (fuel : nat) (cs : list ascii) (n : nat)
    : option (regex * list ascii * nat) :=
  match fuel with
  | O => None
  | S fuel =>
      match cs with
      | [] => None
      | c :: cs1 =>
          if Ascii.eqb c "^" then Some (Bol, cs1, n)
          else if Ascii.eqb c "$" then Some (Eol, cs1, n)
          else
            match parseAtom fuel cs n with
            | Some (a, cs2, n2) =>
                let (r, rest) := parseQuantifier a cs2 in Some (r, rest, n2)
            | None => None
            end
      end
  end
with parseAtom (fuel : nat) (cs : list ascii) (n : nat)
    : option (regex * list ascii * nat) :=
  match fuel with
  | O => None
  | S fuel =>
      match cs with
      | [] => None
      | c :: cs1 =>
          if Ascii.eqb c "(" then
            let closing (inner : option (regex * list ascii * nat))
                        (wrap : regex -> regex) :=
              match inner with
              | Some (r, close :: rest, n1) =>
                  if Ascii.eqb close ")" then Some (wrap r, rest, n1) else None
              | _ => None
              end in
            match cs1 with
            | q :: cs2 =>
                if Ascii.eqb q "?" then
                  match cs2 with
                  | colon :: cs3 =>
                      if Ascii.eqb colon ":"
                      then closing (parseDisjunction fuel cs3 n) (fun r => r)
                      else None
                  | [] => None
                  end
                else closing (parseDisjunction fuel cs1 (S n)) (Group n)
            | [] => None
            end
          else if Ascii.eqb c "[" then
            let (positive, body) :=
              match cs1 with
              | h :: cs2 => if Ascii.eqb h "^" then (false, cs2) else (true, cs1)
              | [] => (true, cs1)
              end in
            match parseClassItems (S (List.length body)) body with
            | Some (items, rest) => Some (Class positive items, rest, n)
            | None => None
            end
          else if Ascii.eqb c "." then Some (Any, cs1, n)
          else if Ascii.eqb c "\" then
            match cs1 with
            | e :: cs2 =>
                match escapeItem e with
                | Some i => Some (atomOfItem i, cs2, n)
                | None => None
                end
            | [] => None
            end
          else if Ascii.eqb c "*" || Ascii.eqb c "+" || Ascii.eqb c "?"
                  || Ascii.eqb c ")" || Ascii.eqb c "|" || Ascii.eqb c "{"
          then None
          else Some (Chr c, cs1, n)
      end
  end.

(** A whole pattern: the expression and its number of capturing groups. *)
Definition parsePattern (source : string) : option (regex * nat) :=
  let cs := list_ascii_of_string source in
  match parseDisjunction (4 * List.length cs + 8) cs 0 with
  | Some (r, [], n) => Some (r, n)
  | _ => None
  end.

(** *** Matching *)

Definition Captures : Type := list (option (list ascii)).

Fixpoint setCapture (i : nat) (v : list ascii) (caps : Captures) : Captures :=
  match i, caps with
  | O, _ :: caps' => Some v :: caps'
  | S i', c :: caps' => c :: setCapture i' v caps'
  | _, [] => []
  end.

Definition upperAscii (c : ascii) : ascii :=
  let n := nat_of_ascii c in
  if ((97 <=? n) && (n <=? 122))%nat then ascii_of_nat (n - 32) else c.

Definition itemMatches (i : ClassItem) (c : ascii) : bool :=
  match i with
  | IChar a => Ascii.eqb a c
  | IRange lo hi =>
      ((nat_of_ascii lo <=? nat_of_ascii c) && (nat_of_ascii c <=? nat_of_ascii hi))%nat
  | IDigit positive => Bool.eqb positive (Js.isDigit c)
  | IWord positive => Bool.eqb positive (isWordChar c)
  | ISpace positive => Bool.eqb positive (isSpaceChar c)
  end.

Section Matcher.

(** the [i] flag *)
Variable ignoreCase : bool.
(** the length of the whole subject, to recognise its start *)
Variable inputLength : nat.

Definition charMatches (a c : ascii) : bool :=
  if ignoreCase then Ascii.eqb (Js.lowerAscii a) (Js.lowerAscii c) else Ascii.eqb a c.

Definition classMatches (positive : bool) (items : list ClassItem) (c : ascii) : bool :=
  let hit (x : ascii) := existsb (fun i => itemMatches i x) items in
  Bool.eqb positive
    (if ignoreCase then hit c || hit (Js.lowerAscii c) || hit (upperAscii c) else hit c).

Definition Continuation : Type :=
  list ascii -> Captures -> option (list ascii * Captures).

(** A backtracking matcher in continuation-passing style: [matchRegex r s
    caps k] matches [r] at the head of [s] and hands what is left to [k];
    the alternatives are tried in the order of the JavaScript semantics.
    An iteration of a star that consumes nothing is refused. *)
Fixpoint matchRegex (r : regex) (s : list ascii) (caps : Captures)
    (k : Continuation) {struct r} : option (list ascii * Captures) :=
  match r with
  | Empty => k s caps
  | Chr a =>
      match s with
      | c :: s' => if charMatches a c then k s' caps else None
      | [] => None
      end
  | Any =>
      match s with
      | c :: s' => if isLineTerminator c then None else k s' caps
      | [] => None
      end
  | Class positive items =>
      match s with
      | c :: s' => if classMatches positive items c then k s' caps else None
      | [] => None
      end
  | Seq r1 r2 => matchRegex r1 s caps (fun s' caps' => matchRegex r2 s' caps' k)
  | Alt r1 r2 =>
      match matchRegex r1 s caps k with
      | Some x => Some x
      | None => matchRegex r2 s caps k
      end
  | Star greedy r1 =>
      (fix star (fuel : nat) (s : list ascii) (caps : Captures)
           : option (list ascii * Captures) :=
         match fuel with
         | O => k s caps
         | S fuel' =>
             let iterate :=
               matchRegex r1 s caps
                 (fun s' caps' =>
                    if (List.length s' <? List.length s)%nat
                    then star fuel' s' caps' else None) in
             if greedy then
               match iterate with
               | Some x => Some x
               | None => k s caps
               end
             else
               match k s caps with
               | Some x => Some x
               | None => iterate
               end
         end) (S (List.length s)) s caps
  | Group i r1 =>
      matchRegex r1 s caps
        (fun s' caps' =>
           k s' (setCapture i (firstn (List.length s - List.length s') s) caps'))
  | Bol => if (List.length s =? inputLength)%nat then k s caps else None
  | Eol =>
      match s with
      | [] => k s caps
      | _ :: _ => None
      end
  end.

End Matcher.

Record RegExp : Type := {
  ast : regex;
  groups : nat;
  global : bool;
  ignoreCase : bool
}.

Record Match : Type := {
  before : list ascii;
  matched : list ascii;
  after : list ascii;
  captures : Captures
}.

(** The leftmost match in [s], which follows the text [beforeRev]
    (reversed) in a subject of length [inputLength]. *)
Fixpoint search (re : RegExp) (inputLength : nat) (beforeRev s : list ascii)
    : option Match :=
  match matchRegex (ignoreCase re) inputLength (ast re) s
          (repeat None (groups re)) (fun rest caps => Some (rest, caps)) with
  | Some (rest, caps) =>
      Some {| before := rev beforeRev;
              matched := firstn (List.length s - List.length rest) s;
              after := rest;
              captures := caps |}
  | None =>
      match s with
      | [] => None
      | c :: s' => search re inputLength (c :: beforeRev) s'
      end
  end.

(** [re.test(s)] *)
Definition test (re : RegExp) (s : string) : bool :=
  let cs := list_ascii_of_string s in
  match search re (List.length cs) [] cs with
  | Some _ => true
  | None => false
  end.

Definition expand (m : Match) (template : string) : list ascii :=
  list_ascii_of_string
    (Js.getSubstitution
       (string_of_list_ascii (matched m))
       (string_of_list_ascii (before m))
       (string_of_list_ascii (after m))
       (map (option_map string_of_list_ascii) (captures m))
       template).

(** The replacements from the position after [beforeRev] on: the text up
    to a match is copied, the match is replaced by the expansion of the
    template, and with the flag [g] the search goes on behind it (one
    character further after an empty match). *)
Fixpoint replaceFrom (fuel : nat) (re : RegExp) (template : string)
    (inputLength : nat) (beforeRev s : list ascii) : list ascii :=
  match fuel with
  | O => s
  | S fuel' =>
      match search re inputLength beforeRev s with
      | None => s
      | Some m =>
          let copied := firstn (List.length (before m) - List.length beforeRev) s in
          let done := (copied ++ expand m template)%list in
          if negb (global re) then (done ++ after m)%list
          else
            let consumedRev := (rev (matched m) ++ rev copied ++ beforeRev)%list in
            match matched m, after m with
            | [], c :: rest =>
                (done ++ c :: replaceFrom fuel' re template inputLength
                                (c :: consumedRev) rest)%list
            | [], [] => done
            | _ :: _, _ =>
                (done ++ replaceFrom fuel' re template inputLength
                           consumedRev (after m))%list
            end
      end
  end.

(** [s.replace(re, template)] *)
Definition replace (s : string) (re : RegExp) (template : string) : string :=
  let cs := list_ascii_of_string s in
  string_of_list_ascii
    (replaceFrom (S (List.length cs)) re template (List.length cs) [] cs).

Fixpoint noDuplicates (cs : list ascii) : bool :=
  match cs with
  | [] => true
  | c :: cs' => negb (existsb (Ascii.eqb c) cs') && noDuplicates cs'
  end.

(** [RegExp(source, flags)] *)
Definition RegExp_new (source flags : string) : result RegExp :=
  let fs := list_ascii_of_string flags in
  if forallb (fun f => Ascii.eqb f "g" || Ascii.eqb f "i") fs && noDuplicates fs then
    match parsePattern source with
    | Some (r, n) =>
        Ok {| ast := r; groups := n;
              global := existsb (Ascii.eqb "g") fs;
              ignoreCase := existsb (Ascii.eqb "i") fs |}
    | None => Throw SyntaxError
    end
  else Throw SyntaxError.

(** *** The [regex-parser] package

    [regexParser(input)] reads [input] as a text between slashes followed
    by flags (letters), the last slash closing the text; an input that
    has not this form is the source as a whole, without flags. *)

Fixpoint splitAtLastSlash (cs : list ascii) : option (list ascii * list ascii) :=
  match cs with
  | [] => None
  | c :: cs' =>
      match splitAtLastSlash cs' with
      | Some (body, tail) => Some (c :: body, tail)
      | None => if Ascii.eqb c "/" then Some ([], cs') else None
      end
  end.

Fixpoint takeLetters (cs : list ascii) : list ascii :=
  match cs with
  | c :: cs' => if Js.isAsciiLetter c then c :: takeLetters cs' else []
  | [] => []
  end.

Definition validParserFlags (fs : list ascii) : bool :=
  forallb (fun f => existsb (Ascii.eqb f) (list_ascii_of_string "gmixXsuUAJ")) fs
  && noDuplicates fs.

Definition regexParser (input : string) : result RegExp :=
  match list_ascii_of_string input with
  | [] => Throw TypeError
  | c :: rest =>
      let whole := RegExp_new input "" in
      if Ascii.eqb c "/" then
        match splitAtLastSlash rest with
        | Some (b :: body, tail) =>
            let flags := takeLetters tail in
            match flags with
            | [] => RegExp_new (string_of_list_ascii (b :: body)) ""
            | _ :: _ =>
                if validParserFlags flags
                then RegExp_new (string_of_list_ascii (b :: body))
                                (string_of_list_ascii flags)
                else whole
            end
        | _ => whole
        end
      else whole
  end.

(** *** Query strings *)

Definition hexValue (c : ascii) : option nat :=
  let n := nat_of_ascii c in
  if ((48 <=? n) && (n <=? 57))%nat then Some (n - 48)
  else if ((65 <=? n) && (n <=? 70))%nat then Some (n - 55)
  else if ((97 <=? n) && (n <=? 102))%nat then Some (n - 87)
  else None.

Definition hexDigit (n : nat) : ascii :=
  if (n <? 10)%nat then ascii_of_nat (48 + n) else ascii_of_nat (55 + n).

(** The byte written [%XY] at the head of [s], and what follows it. *)
Definition percentByte (s : string) : option (nat * string) :=
  match s with
  | String p (String x (String y rest)) =>
      if Ascii.eqb p "%" then
        match hexValue x, hexValue y with
        | Some a, Some b => Some (16 * a + b, rest)
        | _, _ => None
        end
      else None
  | _ => None
  end.

(** Decoding of a name or value of a query: [+] is a space, a well-formed
    [%XY] is its byte, anything else stands for itself. *)
Fixpoint formDecode (s : string) : string :=
  match s with
  | EmptyString => EmptyString
  | String c t1 =>
      if Ascii.eqb c "+" then String " " (formDecode t1)
      else
        match t1 with
        | String x (String y t3) =>
            match (if Ascii.eqb c "%" then hexValue x else None), hexValue y with
            | Some a, Some b => String (ascii_of_nat (16 * a + b)) (formDecode t3)
            | _, _ => String c (formDecode t1)
            end
        | _ => String c (formDecode t1)
        end
  end.

Fixpoint formEncode (s : string) : string :=
  match s with
  | EmptyString => EmptyString
  | String c s' =>
      (if Js.isAsciiLetter c || Js.isDigit c
          || existsb (Ascii.eqb c) (list_ascii_of_string "*-._")
       then String c EmptyString
       else if Ascii.eqb c " " then "+"
       else String "%" (String (hexDigit (nat_of_ascii c / 16))
                          (String (hexDigit (nat_of_ascii c mod 16)) EmptyString)))
      ++ formEncode s'
  end.

(** A piece [name=value] of a query. *)
Fixpoint splitAtEquals (s : string) : string * string :=
  match s with
  | EmptyString => (EmptyString, EmptyString)
  | String c s' =>
      if Ascii.eqb c "=" then (EmptyString, s')
      else let (n, v) := splitAtEquals s' in (String c n, v)
  end.

(** The entries of [new URLSearchParams(s)] *)
Definition URLSearchParams (s : string) : list (string * string) :=
  let query := match Js.stripPrefix "?" s with
               | Some rest => rest
               | None => s
               end in
  map (fun piece => let (n, v) := splitAtEquals piece in (formDecode n, formDecode v))
      (filter (fun piece => negb (String.eqb piece "")) (Js.split "&" query)).

Definition URLSearchParams_toString (l : list (string * string)) : string :=
  String.concat "&" (map (fun kv => formEncode (fst kv) ++ "=" ++ formEncode (snd kv)) l).

(** *** [decodeURIComponent]

    Every [%XY] is decoded; a [%] that starts no escape, or escapes that
    are not the UTF-8 encoding of a character, raise [URIError]. *)

(** The continuation bytes (range of the first one) that follow the lead
    byte [b] of a UTF-8 sequence. *)
Definition utf8Tail (b : nat) : option (nat * nat * nat) :=
  if ((194 <=? b) && (b <=? 223))%nat then Some (1, 128, 191)
  else if (b =? 224)%nat then Some (2, 160, 191)
  else if (b =? 237)%nat then Some (2, 128, 159)
  else if ((225 <=? b) && (b <=? 239))%nat then Some (2, 128, 191)
  else if (b =? 240)%nat then Some (3, 144, 191)
  else if (b =? 244)%nat then Some (3, 128, 143)
  else if ((241 <=? b) && (b <=? 243))%nat then Some (3, 128, 191)
  else None.

Fixpoint continuationBytes (n lo hi : nat) (s : string) : option (string * string) :=
  match n with
  | O => Some (EmptyString, s)
  | S n' =>
      match percentByte s with
      | Some (b, rest) =>
          if ((lo <=? b) && (b <=? hi))%nat then
            match continuationBytes n' 128 191 rest with
            | Some (bytes, rest') => Some (String (ascii_of_nat b) bytes, rest')
            | None => None
            end
          else None
      | None => None
      end
  end.

Fixpoint decodeFrom (fuel : nat) (s : string) : result string :=
  match fuel with
  | O => Ok s
  | S fuel' =>
      match s with
      | EmptyString => Ok EmptyString
      | String c s' =>
          if negb (Ascii.eqb c "%") then
            rest <- decodeFrom fuel' s' ;; Ok (String c rest)
          else
            match percentByte s with
            | None => Throw URIError
            | Some (b, after) =>
                if (b <? 128)%nat then
                  rest <- decodeFrom fuel' after ;; Ok (String (ascii_of_nat b) rest)
                else
                  match utf8Tail b with
                  | None => Throw URIError
                  | Some (n, lo, hi) =>
                      match continuationBytes n lo hi after with
                      | None => Throw URIError
                      | Some (bytes, after') =>
                          rest <- decodeFrom fuel' after' ;;
                          Ok (String (ascii_of_nat b) (bytes ++ rest))
                      end
                  end
            end
      end
  end.

Definition decodeURIComponent (s : string) : result string :=
  decodeFrom (String.length s) s.

(** *** URLs

    [pathnameOf] is the pathname setter of the URL standard for a URL
    with a special scheme: tabs and newlines are dropped, a slash or a
    backslash ends a segment, [.] and [..] segments (also written with
    [%2e]) are resolved, and every other character of the path
    percent-encode set is written as [%XY].

    [set_href] reads [scheme://host], a path, a query and a fragment, and
    normalises nothing; a string with no scheme is no URL.  The first
    segment of the path is the locale when the configuration lists it, up
    to case, as [NextURL] finds it; otherwise the locale is the default
    one.  [href] writes the locale before the path when it is not the
    default one and the path does not start with it.  The base path and
    the trailing-slash policy of Next.js are no part of this instance. *)

Definition inPathEncodeSet (c : ascii) : bool :=
  let n := nat_of_ascii c in
  ((n <=? 32) || (126 <? n)
   || existsb (Nat.eqb n) [34; 35; 60; 62; 63; 94; 96; 123; 125])%nat.

Definition encodePathChar (c : ascii) : string :=
  if inPathEncodeSet c
  then String "%" (String (hexDigit (nat_of_ascii c / 16))
                     (String (hexDigit (nat_of_ascii c mod 16)) EmptyString))
  else String c EmptyString.

Definition isSingleDot (segment : string) : bool :=
  existsb (String.eqb (Js.lowerAsciiString segment)) ["."; "%2e"].

Definition isDoubleDot (segment : string) : bool :=
  existsb (String.eqb (Js.lowerAsciiString segment))
    [".."; ".%2e"; "%2e."; "%2e%2e"].

(** The end of a segment, at a slash or at the end of the input. *)
Definition endSegment (path : list string) (buffer : string) (atEnd : bool)
    : list string :=
  if isDoubleDot buffer
  then (if atEnd then removelast path ++ [EmptyString] else removelast path)%list
  else if isSingleDot buffer
  then (if atEnd then path ++ [EmptyString] else path)%list
  else (path ++ [buffer])%list.

Fixpoint pathState (path : list string) (buffer : string) (s : string)
    : list string :=
  match s with
  | EmptyString => endSegment path buffer true
  | String c s' =>
      if Ascii.eqb c "/" || Ascii.eqb c "\"
      then pathState (endSegment path buffer false) EmptyString s'
      else pathState path (buffer ++ encodePathChar c) s'
  end.

Fixpoint serializePath (path : list string) : string :=
  match path with
  | [] => EmptyString
  | segment :: path' => String "/" (segment ++ serializePath path')
  end.

Fixpoint dropTabsAndNewlines (s : string) : string :=
  match s with
  | EmptyString => EmptyString
  | String c s' =>
      if existsb (Nat.eqb (nat_of_ascii c)) [9; 10; 13]
      then dropTabsAndNewlines s'
      else String c (dropTabsAndNewlines s')
  end.

Definition pathnameOf (s : string) : string :=
  let s := dropTabsAndNewlines s in
  serializePath
    (pathState [] EmptyString
       (match s with
        | String c s' => if Ascii.eqb c "/" || Ascii.eqb c "\" then s' else s
        | EmptyString => s
        end)).

Lemma encodePathChar_no_query (c : ascii) :
  Js.hasChar "?" (encodePathChar c) = false.
Proof. destruct c as [[] [] [] [] [] [] [] []]; vm_compute; reflexivity. Qed.

Lemma append_no_query (a b : string) :
  Js.hasChar "?" a = false -> Js.hasChar "?" b = false ->
  Js.hasChar "?" (a ++ b) = false.
Proof.
  intros Ha Hb. induction a as [|c a IH]; [exact Hb|].
  cbn [append Js.hasChar] in *. apply orb_false_iff in Ha as [Hc Ha].
  now rewrite Hc, (IH Ha).
Qed.

Lemma removelast_no_query (path : list string) :
  Forall (fun segment => Js.hasChar "?" segment = false) path ->
  Forall (fun segment => Js.hasChar "?" segment = false) (removelast path).
Proof.
  induction 1 as [|x l Hx Hl IH]; [constructor|].
  cbn [removelast]. destruct l; [constructor | now constructor].
Qed.

Lemma endSegment_no_query (path : list string) (buffer : string) (atEnd : bool) :
  Forall (fun segment => Js.hasChar "?" segment = false) path ->
  Js.hasChar "?" buffer = false ->
  Forall (fun segment => Js.hasChar "?" segment = false)
    (endSegment path buffer atEnd).
Proof.
  intros Hp Hb. unfold endSegment.
  destruct (isDoubleDot buffer); [|destruct (isSingleDot buffer)];
    try destruct atEnd;
    repeat (apply Forall_app; split);
    auto using removelast_no_query.
Qed.

Lemma pathState_no_query (s : string) (path : list string) (buffer : string) :
  Forall (fun segment => Js.hasChar "?" segment = false) path ->
  Js.hasChar "?" buffer = false ->
  Forall (fun segment => Js.hasChar "?" segment = false) (pathState path buffer s).
Proof.
  revert path buffer. induction s as [|c s IH]; intros path buffer Hp Hb;
    cbn [pathState].
  - now apply endSegment_no_query.
  - destruct (Ascii.eqb c "/" || Ascii.eqb c "\").
    + apply IH; [now apply endSegment_no_query | reflexivity].
    + apply IH; [exact Hp|].
      apply append_no_query; [exact Hb | apply encodePathChar_no_query].
Qed.

Lemma serializePath_no_query (path : list string) :
  Forall (fun segment => Js.hasChar "?" segment = false) path ->
  Js.hasChar "?" (serializePath path) = false.
Proof.
  induction 1 as [|x l Hx Hl IH]; [reflexivity|].
  cbn [serializePath Js.hasChar]. cbn [Ascii.eqb Bool.eqb orb].
  now apply append_no_query.
Qed.

Lemma pathnameOf_no_query (s : string) : Js.hasChar "?" (pathnameOf s) = false.
Proof.
  unfold pathnameOf. apply serializePath_no_query, pathState_no_query;
    [constructor | reflexivity].
Qed.

Fixpoint splitAtAny (stops : string) (s : string) : string * string :=
  match s with
  | EmptyString => (EmptyString, EmptyString)
  | String c s' =>
      if existsb (Ascii.eqb c) (list_ascii_of_string stops) then (EmptyString, s)
      else let (a, b) := splitAtAny stops s' in (String c a, b)
  end.

(** The locale of the configuration that the first segment of [path]
    names, up to case, and the path behind that segment. *)
Definition detectLocale (locales : list string) (path : string)
    : option (string * string) :=
  match nth_error (Js.split "/" path) 1 with
  | Some segment =>
      match List.find (fun l => String.eqb (Js.lowerAsciiString l)
                                  (Js.lowerAsciiString segment)) locales with
      | Some l =>
          let rest := substring (String.length l + 1) (String.length path) path in
          Some (l, if String.eqb rest "" then "/" else rest)
      | None => None
      end
  | None => None
  end.

Definition set_href (u : NextURL.t) (s : string) : result NextURL.t :=
  let scheme := fst (splitAtAny ":" s) in
  match Js.stripPrefix (scheme ++ "://") s with
  | Some rest =>
      let (host, rest1) := splitAtAny "/?#" rest in
      let (path, rest2) := splitAtAny "?#" rest1 in
      let (query, fragment) := splitAtAny "#" rest2 in
      if negb (String.eqb scheme "")
         && forallb Js.isAsciiLetter (list_ascii_of_string scheme)
         && negb (String.eqb host "")
      then
        let search := if String.eqb query "?" then "" else query in
        let path := if String.eqb path "" then "/" else path in
        let (locale, pathname) :=
          match detectLocale (NextURL.i18n_locales u) path with
          | Some found => found
          | None => (NextURL.defaultLocale u, path)
          end in
        Ok (NextURL.mk (scheme ++ "://" ++ host) locale (NextURL.defaultLocale u)
              pathname search (URLSearchParams search)
              (if String.eqb fragment "#" then "" else fragment)
              (NextURL.i18n_locales u))
      else Throw TypeError
  | None => Throw TypeError
  end.

(** Whether [path] is [prefix] or starts with [prefix] and a slash. *)
Definition pathHasPrefix (path prefix : string) : bool :=
  String.eqb path prefix || Js.startsWith (prefix ++ "/") path.

Definition addLocale (path locale defaultLocale : string) : string :=
  if String.eqb locale "" || String.eqb locale defaultLocale then path
  else if pathHasPrefix (Js.lowerAsciiString path) "/api"
          || pathHasPrefix (Js.lowerAsciiString path)
               ("/" ++ Js.lowerAsciiString locale)
  then path
  else "/" ++ locale ++ path.

Definition href (u : NextURL.t) : string :=
  NextURL.origin u
  ++ addLocale (NextURL.pathname u) (NextURL.locale u) (NextURL.defaultLocale u)
  ++ NextURL.search u ++ NextURL.hash u.

Definition platform : Platform :=
  @Build_Platform RegExp RegExp_new regexParser test replace Js.lowerAsciiString
    URLSearchParams URLSearchParams_toString set_href href decodeURIComponent
    pathnameOf pathnameOf_no_query.

End Reference.

(** ** Data of the runs on the reference platform *)

(** A request to [https://www.site.com], under a configuration whose
    locales are [en] and [fr] and whose default locale is [en]. *)
Definition exampleRequest (locale path query : string) : NextRequest :=
  {| nextUrl :=
       NextURL.mk "https://www.site.com" locale "en" path query
         (Reference.URLSearchParams query) "" ["en"; "fr"] |}.

(** A middleware for the site [site], whose language is [en], with the
    regions [en] and [fr], over the Edge Config item [item]. *)
Definition exampleMiddleware (item : EdgeConfigRead) : Middleware :=
  {| regions := ["en"; "fr"];
     config_disabled := None;
     isPreview := fun _ => false;
     excludeRoute := fun _ => false;
     getLanguage := fun req => NextURL.locale (nextUrl req);
     getHostHeader := fun _ => Some "www.site.com";
     defaultHostname := "localhost";
     getSite := fun _ => {| name := "site"; language := "en" |};
     get := fun _ => item |}.

Definition exampleCatalog (rules : list RedirectInfo.t) : Middleware :=
  exampleMiddleware (ReadJsonArray rules).

(** The rules of the runs. *)
Definition ruleOther : RedirectInfo.t :=
  RedirectInfo.mk "/other" "/elsewhere" REDIRECT_TYPE_301 false None.
Definition ruleA : RedirectInfo.t :=
  RedirectInfo.mk "/old" "/new-a" REDIRECT_TYPE_301 false None.
Definition ruleB : RedirectInfo.t :=
  RedirectInfo.mk "/old" "/new-b" REDIRECT_TYPE_302 false None.
(** a pattern with an open group: [^/broken([/]?$] is no regular expression *)
Definition ruleBroken : RedirectInfo.t :=
  RedirectInfo.mk "/broken(" "/never" REDIRECT_TYPE_301 false None.
Definition rulePromo : RedirectInfo.t :=
  RedirectInfo.mk "/promo(" "/offers" REDIRECT_TYPE_302 false None.
Definition ruleSale : RedirectInfo.t :=
  RedirectInfo.mk "/sale" "/offers" REDIRECT_TYPE_302 false None.
Definition ruleFrench : RedirectInfo.t :=
  RedirectInfo.mk "/about" "/a-propos" REDIRECT_TYPE_301 false (Some "fr").
Definition ruleHost : RedirectInfo.t :=
  RedirectInfo.mk "/old" "https://$siteLang.example.com/new" REDIRECT_TYPE_301 false None.
Definition ruleAbsolute : RedirectInfo.t :=
  RedirectInfo.mk "/old" "https://example.com/new" REDIRECT_TYPE_301 false None.

(** The value of a result that is known to be [Ok]. *)
Ltac ok_value c :=
  let v := eval vm_compute in c in
  match v with
  | Ok ?a => a
  end.

Ltac run := vm_compute; reflexivity.

Definition ruleFr : RedirectInfo.t :=
  RedirectInfo.mk "/old" "/fr/new" REDIRECT_TYPE_301 true None.
(** [ruleFr] as [getRedirects] returns it *)
Definition ruleLocale : RedirectInfo.t :=
  RedirectInfo.set_pattern ruleFr "/^/old[/]?$/gi".

Definition ruleQuery : RedirectInfo.t :=
  RedirectInfo.mk "/^/old\?a=1[/]?$/gi" "/new?b=2" REDIRECT_TYPE_301 true None.

(** an absolute target without scheme, and one without path *)
Definition ruleSchemeless : RedirectInfo.t :=
  RedirectInfo.mk "/old" "//example.com/new" REDIRECT_TYPE_301 false None.
Definition ruleBare : RedirectInfo.t :=
  RedirectInfo.mk "/old" "https://example.com" REDIRECT_TYPE_301 false None.
Definition ruleGerman : RedirectInfo.t :=
  RedirectInfo.mk "/old" "/de/new" REDIRECT_TYPE_301 false None.

(** The middleware of the runs with one more region, [de], which the
    configuration of the request URLs does not list. *)
Definition wideCatalog (rules : list RedirectInfo.t) : Middleware :=
  {| regions := ["en"; "fr"; "de"];
     config_disabled := None;
     isPreview := fun _ => false;
     excludeRoute := fun _ => false;
     getLanguage := fun req => NextURL.locale (nextUrl req);
     getHostHeader := fun _ => Some "www.site.com";
     defaultHostname := "localhost";
     getSite := fun _ => {| name := "site"; language := "en" |};
     get := fun _ => ReadJsonArray rules |}.

(** ** The pattern rewriting of lines 185-190, by itself *)

(** The text put between [/^/] and [[/]?$/gi] by lines 185-190, for the
    pattern left by line 184. *)
Definition patternBody (pattern : string) : string :=
  stripEnds "" "$/gi"
    (escapeQuestionMarks None
       (stripEnds "^" "$"
          (stripEnds "^/" "/$"
             (stripEnds "/" "/" pattern)))).

(** The value given to [redirect.pattern] by line 185. *)
Definition wrapPattern (pattern : string) : string :=
  "/^/" ++ patternBody pattern ++ "[/]?$/gi".

(** Whether [s], which follows the character [prev], holds a question
    mark with no backslash right before it. *)
Fixpoint hasBareQuestionMark (prev : option ascii) (s : string) : bool :=
  match s with
  | EmptyString => false
  | String c s' =>
      (Ascii.eqb c "?"
       && negb match prev with
               | Some p => Ascii.eqb p "\"
               | None => false
               end)
      || hasBareQuestionMark (Some c) s'
  end.

Definition isNone {A : Type} (o : option A) : bool :=
  match o with
  | Some _ => false
  | None => true
  end.

(** A pattern body written without slash or anchor at its ends: it does
    not start with [/] or [^] and does not end with [/] or [$]. *)
Definition plainEnds (s : string) : bool :=
  isNone (Js.stripPrefix "/" s) && isNone (Js.stripPrefix "^" s)
  && isNone (Js.stripSuffix "/" s) && isNone (Js.stripSuffix "$" s).

(** ** The publish handler

    [handler] of [redirect-publish-handler.ts]: the API route that reads
    the redirects of the application from the redirects service and
    writes them to the Edge Config store, under the name of the
    application, where [getRedirects] reads them.

    The handler works on the response object it is given and talks to
    two services.  Its model threads a state through the calls: the
    status code set on the response, what the client was sent, and the
    trace of the calls made.  A promise that rejects and a method that
    throws are a [Raised] outcome; the state reached so far is kept. *)

Module Publish.

(** What [process.env] holds of the three variables the handler reads. *)
Record Env : Type := {
  JSS_APP_NAME : option string;
  EDGE_CONFIG_ENDPOINT : option string;
  EDGE_CONFIG_VERCEL_TOKEN : option string
}.

(** [!v] for a variable of the environment: undefined or empty. *)
Definition unset (v : option string) : bool :=
  match v with
  | Some s => String.eqb s ""
  | None => true
  end.

Inductive Failure : Type :=
| FetchRedirectsRejected  (* the promise of [fetchRedirects] rejects *)
| FetchRejected           (* the promise of [fetch] rejects *)
| JsonRejected            (* the promise of [updateEdgeConfig.json()] rejects *)
| HeadersSent.            (* a body is sent on a response already sent *)

(** One element of [items], lines 29-35. *)
Record Item : Type := {
  operation : string;
  key : string;
  value : string
}.

(** The arguments of [fetch], lines 38-47. *)
Record Request : Type := {
  url : string;
  method : string;
  headers : list (string * string);
  body : string
}.

(** The response of [fetch]: [json] is [None] when the promise of
    [.json()] rejects. *)
Record Reply (Json : Type) : Type := {
  ok : bool;
  status : Z;
  json : option Json
}.

(** The services around the handler.  [fetchRedirects] and [fetch] are
    [None] when their promise rejects.  [sendAgainRaises] tells what the
    response object does when a body is sent on it a second time: it
    throws, or it ignores the call. *)
Record World (Redirect Json : Type) : Type := {
  fetchRedirects : string -> option (list Redirect);
  (** [JSON.stringify(redirects)] *)
  JSON_stringify : list Redirect -> string;
  (** [JSON.stringify({ items })] *)
  JSON_stringify_items : list Item -> string;
  fetch : Request -> option (Reply Json);
  sendAgainRaises : bool
}.

(** The bodies the handler sends. *)
Inductive Body (Json : Type) : Type :=
| ErrorBody (error : string)      (* [{ error }] *)
| MessageBody (message : string)  (* [{ message }] *)
| ResultBody (j : Json).          (* the parsed body of the reply *)

Arguments ErrorBody {Json} error.
Arguments MessageBody {Json} message.
Arguments ResultBody {Json} j.

Inductive Event : Type :=
| CallFetchRedirects (siteName : string)
| CallFetch (request : Request)
| ConsoleError (e : Failure).

Record State (Json : Type) : Type := {
  statusCode : Z;
  sent : option (Z * Body Json);
  trace : list Event
}.

(** The response object as the route receives it. *)
Definition fresh (Json : Type) : State Json :=
  {| statusCode := 200; sent := None; trace := [] |}.

Inductive Outcome (A : Type) : Type :=
| Returned (a : A)
| Raised (e : Failure).

Arguments Returned {A} a.
Arguments Raised {A} e.

Definition M (Json A : Type) : Type := State Json -> Outcome A * State Json.

Definition ret {Json A : Type} (a : A) : M Json A := fun s => (Returned a, s).

Definition raise {Json A : Type} (e : Failure) : M Json A := fun s => (Raised e, s).

Definition bind {Json A B : Type} (c : M Json A) (k : A -> M Json B) : M Json B :=
  fun s =>
    match c s with
    | (Returned a, s') => k a s'
    | (Raised e, s') => (Raised e, s')
    end.

Notation "x <~ c ;; k" := (bind c (fun x => k))
  (at level 61, c at next level, right associativity).

(** [try { body } catch (error) { handler }] *)
Definition tryCatch {Json A : Type} (body : M Json A) (handler : Failure -> M Json A)
    : M Json A :=
  fun s =>
    match body s with
    | (Returned a, s') => (Returned a, s')
    | (Raised e, s') => handler e s'
    end.

Definition record {Json : Type} (e : Event) : M Json unit :=
  fun s =>
    (Returned tt,
     {| statusCode := statusCode s; sent := sent s; trace := trace s ++ [e] |}).

Section Handler.

Variables Redirect Json : Type.
Variable world : World Redirect Json.

(** [response.status(code)] *)
Definition response_status (code : Z) : M Json unit :=
  fun s => (Returned tt, {| statusCode := code; sent := sent s; trace := trace s |}).

(** [response.send(body)]: the client receives the body with the status
    code set on the response, once. *)
Definition response_send (b : Body Json) : M Json unit :=
  fun s =>
    match sent s with
    | None =>
        (Returned tt,
         {| statusCode := statusCode s;
            sent := Some (statusCode s, b);
            trace := trace s |})
    | Some _ =>
        if sendAgainRaises world then (Raised HeadersSent, s) else (Returned tt, s)
    end.

(** [response.json(body)] sends the body as JSON. *)
Definition response_json (b : Body Json) : M Json unit := response_send b.

Definition console_error (e : Failure) : M Json unit := record (ConsoleError e).

(** [await redirectsService.fetchRedirects(siteName)] *)
Definition callFetchRedirects (siteName : string) : M Json (list Redirect) :=
  _ <~ record (CallFetchRedirects siteName) ;;
  match fetchRedirects world siteName with
  | Some redirects => ret redirects
  | None => raise FetchRedirectsRejected
  end.

(** [await fetch(url, init)] *)
Definition callFetch (request : Request) : M Json (Reply Json) :=
  _ <~ record (CallFetch request) ;;
  match fetch world request with
  | Some reply => ret reply
  | None => raise FetchRejected
  end.

(** [await updateEdgeConfig.json()] *)
Definition reply_json (reply : Reply Json) : M Json Json :=
  match json reply with
  | Some j => ret j
  | None => raise JsonRejected
  end.

(** Lines 29-35. *)
Definition items (appName : string) (redirects : list Redirect) : list Item :=
  [ {| operation := "upsert";
       key := appName;
       value := JSON_stringify world redirects |} ].

(** The request of lines 38-47. *)
Definition updateRequest (appName endpoint token : string)
    (redirects : list Redirect) : Request :=
  {| url := endpoint;
     method := "PATCH";
     headers := [ ("Authorization", "Bearer " ++ token);
                  ("Content-Type", "application/json") ];
     body := JSON_stringify_items world (items appName redirects) |}.

(** Lines 12-14. *)
Definition notConfigured : M Json unit :=
  _ <~ response_status 500 ;;
  response_json
    (ErrorBody "Environment variables for Edge Config redirects are not set").

(** Lines 24-54, with the three variables read. *)
Definition publish (appName endpoint token : string) : M Json unit :=
  redirects <~ callFetchRedirects appName ;;
  _ <~ (if (List.length redirects =? 0)%nat
        then _ <~ response_status 200 ;;
             response_send (MessageBody "No redirects present")
        else ret tt) ;;
  tryCatch
    (updateEdgeConfig <~ callFetch (updateRequest appName endpoint token redirects) ;;
     result <~ reply_json updateEdgeConfig ;;
     _ <~ response_status 200 ;;
     response_send (ResultBody result))
    (fun error =>
       _ <~ console_error error ;;
       _ <~ response_status 500 ;;
       response_json (ErrorBody "Error updating Edge Config")).

Definition handler (env : Env) : M Json unit :=
  if unset (JSS_APP_NAME env)
     || unset (EDGE_CONFIG_ENDPOINT env)
     || unset (EDGE_CONFIG_VERCEL_TOKEN env)
  then notConfigured
  else
    match JSS_APP_NAME env, EDGE_CONFIG_ENDPOINT env, EDGE_CONFIG_VERCEL_TOKEN env with
    | Some appName, Some endpoint, Some token => publish appName endpoint token
    | _, _, _ => notConfigured
    end.

End Handler.

(** The calls of [fetch] in a trace. *)
Fixpoint fetchCalls (t : list Event) : list Request :=
  match t with
  | [] => []
  | CallFetch request :: t' => request :: fetchCalls t'
  | _ :: t' => fetchCalls t'
  end.

(** A service for the runs: the redirects are numbers, the redirects
    service holds [catalog] for the application [site], and the store
    answers every request by [reply]. *)
Definition exampleWorld (catalog : list nat) (reply : option (Reply string))
    (again : bool) : World nat string :=
  {| fetchRedirects := fun siteName =>
       if String.eqb siteName "site" then Some catalog else None;
     JSON_stringify := fun l =>
       match l with
       | [] => "[]"
       | _ => "[...]"
       end;
     JSON_stringify_items := fun l =>
       String.concat ","
         (map (fun i => operation i ++ " " ++ key i ++ " " ++ value i) l);
     fetch := fun _ => reply;
     sendAgainRaises := again |}.

Definition exampleEnv : Env :=
  {| JSS_APP_NAME := Some "site";
     EDGE_CONFIG_ENDPOINT := Some "https://api.vercel.com/v1/edge-config/ecfg_1/items";
     EDGE_CONFIG_VERCEL_TOKEN := Some "secret" |}.

End Publish.

(** The three variables as the handler reads them past its first test. *)
Definition configured (env : Publish.Env) (appName endpoint token : string) : Prop :=
  Publish.JSS_APP_NAME env = Some appName /\
  Publish.EDGE_CONFIG_ENDPOINT env = Some endpoint /\
  Publish.EDGE_CONFIG_VERCEL_TOKEN env = Some token /\
  appName <> "" /\ endpoint <> "" /\ token <> "".

Ltac publish_steps :=
  cbv beta iota zeta delta
    [Publish.publish Publish.notConfigured Publish.bind Publish.ret Publish.raise
     Publish.tryCatch Publish.record Publish.response_status Publish.response_send
     Publish.response_json Publish.console_error Publish.callFetchRedirects
     Publish.callFetch Publish.reply_json Publish.fresh
     Publish.statusCode Publish.sent Publish.trace Publish.fetchCalls
     List.length Nat.eqb app fst snd].

(** * Properties *)

Unset Implicit Arguments.

(** ** Strings *)

Lemma append_empty_r (s : string) : s ++ "" = s.
Proof. induction s as [|c s IH]; simpl; [reflexivity | now rewrite IH]. Qed.

Lemma append_assoc (a b c : string) : (a ++ b) ++ c = a ++ (b ++ c).
Proof. induction a as [|x a IH]; simpl; [reflexivity | now rewrite IH]. Qed.

Lemma stripPrefix_append (p rest : string) : Js.stripPrefix p (p ++ rest) = Some rest.
Proof.
  induction p as [|c p IH]; simpl.
  - reflexivity.
  - now rewrite Ascii.eqb_refl.
Qed.

(** The first piece of a split holds no separator, and what follows the
    first separator is split into the other pieces. *)
Lemma split_first (sep : ascii) (s : string) :
  exists h t,
    Js.split sep s = h :: t /\ Js.hasChar sep h = false /\
    ((t = [] /\ s = h) \/
     (exists s', s = h ++ String sep s' /\ t = Js.split sep s')).
Proof.
  induction s as [|c s IH]; simpl.
  - exists "", []. auto.
  - destruct (Ascii.eqb c sep) eqn:E.
    + apply Ascii.eqb_eq in E. subst c.
      exists "", (Js.split sep s). split; [reflexivity|]. split; [reflexivity|].
      right. exists s. auto.
    + destruct IH as (h & t & Hs & Hh & Ht). rewrite Hs.
      exists (String c h), t. split; [reflexivity|]. split.
      * simpl. now rewrite E.
      * destruct Ht as [[-> ->] | (s' & -> & ->)].
        -- left. auto.
        -- right. exists s'. auto.
Qed.

Lemma split_no_separator (sep : ascii) (s : string) :
  Js.hasChar sep s = false -> Js.split sep s = [s].
Proof.
  induction s as [|c s IH]; simpl; intros H.
  - reflexivity.
  - apply orb_false_iff in H as [Hc Hs]. rewrite Hc, (IH Hs). reflexivity.
Qed.


(** The second piece of [target.split('/')] is a segment of the target
    that follows its first slash. *)
Lemma second_piece (target p : string) :
  nth_error (Js.split "/" target) 1 = Some p ->
  exists a rest,
    target = a ++ "/" ++ p ++ rest /\
    Js.hasChar "/" a = false /\ Js.hasChar "/" p = false /\
    (rest = "" \/ Js.startsWith "/" rest = true).
Proof.
  intros H.
  destruct (split_first "/" target) as (a & t & Hs & Ha & Ht).
  rewrite Hs in H. destruct Ht as [[-> _] | (s' & -> & ->)]; [discriminate|].
  destruct (split_first "/" s') as (q & t' & Hs' & Hq & Ht').
  rewrite Hs' in H. simpl in H. injection H as ->.
  exists a. destruct Ht' as [[_ ->] | (s'' & -> & _)].
  - exists "". rewrite append_empty_r. auto.
  - exists (String "/" s''). split; [reflexivity|]. split; [assumption|].
    split; [assumption|]. right. reflexivity.
Qed.

Lemma replaceFirst_unfold (pat rep s : string) :
  Js.replaceFirst pat rep s =
  match Js.stripPrefix pat s with
  | Some rest => rep ++ rest
  | None =>
      match s with
      | EmptyString => EmptyString
      | String c s' => String c (Js.replaceFirst pat rep s')
      end
  end.
Proof. destruct s; reflexivity. Qed.

(** Removing the first occurrence of a text that starts with [c], in a
    string where no [c] comes before that occurrence. *)
Lemma replaceFirst_after (pat rep a rest : string) (c : ascii) :
  Js.hasChar c a = false ->
  Js.replaceFirst (String c pat) rep (a ++ String c pat ++ rest) = a ++ rep ++ rest.
Proof.
  induction a as [|x a IH]; intros H.
  - change ("" ++ String c pat ++ rest) with (String c pat ++ rest).
    rewrite replaceFirst_unfold, stripPrefix_append. reflexivity.
  - simpl in H. apply orb_false_iff in H as [Hx Ha].
    rewrite replaceFirst_unfold.
    change ((String x a) ++ String c pat ++ rest)
      with (String x (a ++ String c pat ++ rest)).
    cbn [Js.stripPrefix]. rewrite Ascii.eqb_sym, Hx.
    cbn [append]. f_equal. apply IH. exact Ha.
Qed.

(** ** The matcher *)

Section MatcherFacts.

Context {P : Platform}.

Lemma bind_Ok {A B : Type} (c : result A) (k : A -> result B) (b : B) :
  bind c k = Ok b -> exists a, c = Ok a /\ k a = Ok b.
Proof. destruct c as [a|e]; simpl; intros H; [eauto | discriminate]. Qed.

Lemma testCandidates_parsed (p : string) (re : RegExp) (cs : list string) :
  regexParser p = Ok re ->
  testCandidates p cs = Ok (existsb (RegExp_test re) cs).
Proof.
  intros Hre. induction cs as [|c cs IH]; simpl.
  - reflexivity.
  - unfold testPattern. rewrite Hre. simpl.
    destruct (RegExp_test re c); [reflexivity | exact IH].
Qed.

Lemma testCandidates_raises (p : string) (e : JsError) (req : NextRequest) :
  regexParser p = Throw e -> testCandidates p (candidates req) = Throw e.
Proof. intros H. simpl. unfold testPattern. now rewrite H. Qed.

(** A pattern that is tested has been parsed. *)
Lemma testCandidates_Ok (p : string) (req : NextRequest) (b : bool) :
  testCandidates p (candidates req) = Ok b ->
  exists re, regexParser p = Ok re /\ b = existsb (RegExp_test re) (candidates req).
Proof.
  intros H. destruct (regexParser p) as [re|e] eqn:Hre.
  - exists re. split; [reflexivity|].
    rewrite (testCandidates_parsed p re (candidates req) Hre) in H. now injection H.
  - rewrite (testCandidates_raises p e req Hre) in H. discriminate.
Qed.

Lemma localeFilter_set_pattern (req : NextRequest) (r : RedirectInfo.t) (p : string) :
  localeFilter req (RedirectInfo.set_pattern r p) = localeFilter req r.
Proof. reflexivity. Qed.

Lemma matchRedirect_unfold (language : string) (req : NextRequest) (r : RedirectInfo.t) :
  matchRedirect language req r =
  (p <- compilePattern language (RedirectInfo.pattern r) ;;
   b <- testCandidates p (candidates req) ;;
   Ok (RedirectInfo.set_pattern r p, b && localeFilter req r)).
Proof. reflexivity. Qed.

Lemma ruleMatches_unfold (mw : Middleware) (req : NextRequest) (r : RedirectInfo.t) :
  ruleMatches mw req r =
  (b <- patternMatches mw req r ;; Ok (b && localeFilter req r)).
Proof.
  unfold ruleMatches, patternMatches. rewrite matchRedirect_unfold.
  destruct (compilePattern _ _) as [p|e]; cbn [bind]; [|reflexivity].
  destruct (testCandidates p (candidates req)) as [b|e]; reflexivity.
Qed.

(** What the callback returns on a rule whose match condition is [b]. *)
Lemma matchRedirect_of_ruleMatches (mw : Middleware) (req : NextRequest)
    (r : RedirectInfo.t) (b : bool) :
  ruleMatches mw req r = Ok b ->
  exists p,
    compilePattern (getLanguage mw req) (RedirectInfo.pattern r) = Ok p /\
    matchRedirect (getLanguage mw req) req r = Ok (RedirectInfo.set_pattern r p, b).
Proof.
  unfold ruleMatches. rewrite matchRedirect_unfold. intros H.
  destruct (compilePattern _ _) as [p|e]; cbn [bind] in *; [|discriminate].
  exists p. split; [reflexivity|].
  destruct (testCandidates p (candidates req)) as [b'|e]; cbn [bind snd] in *;
    [|discriminate].
  now injection H as ->.
Qed.

Lemma ruleMatches_raises (mw : Middleware) (req : NextRequest)
    (r : RedirectInfo.t) (e : JsError) :
  ruleMatches mw req r = Throw e ->
  matchRedirect (getLanguage mw req) req r = Throw e.
Proof.
  unfold ruleMatches. destruct (matchRedirect _ _ _); simpl; intros H;
    [discriminate | now injection H as ->].
Qed.

(** [find] over rules that do not match, up to the first rule that does,
    or that raises. *)
Lemma find_skips (mw : Middleware) (req : NextRequest)
    (l1 l : list RedirectInfo.t) :
  Forall (fun x => ruleMatches mw req x = Ok false) l1 ->
  find (matchRedirect (getLanguage mw req) req) (l1 ++ l)%list =
  find (matchRedirect (getLanguage mw req) req) l.
Proof.
  induction 1 as [|x l1 Hx _ IH]; simpl.
  - reflexivity.
  - destruct (matchRedirect_of_ruleMatches _ _ _ _ Hx) as (p & _ & ->). simpl.
    exact IH.
Qed.

Lemma getRedirects_array (mw : Middleware) (req : NextRequest) (siteName : string)
    (l : list RedirectInfo.t) :
  get mw siteName = ReadJsonArray l ->
  getRedirects mw req siteName = find (matchRedirect (getLanguage mw req) req) l.
Proof.
  intros H. unfold getRedirects, structuredClone. rewrite H.
  destruct l; reflexivity.
Qed.

(** The rule [getRedirects] returns is a rule of the catalog with its
    pattern rewritten, and its match condition holds. *)
Lemma find_Some (mw : Middleware) (req : NextRequest) (l : list RedirectInfo.t)
    (r' : RedirectInfo.t) :
  find (matchRedirect (getLanguage mw req) req) l = Ok (Some r') ->
  exists r p,
    In r l /\ ruleMatches mw req r = Ok true /\
    compilePattern (getLanguage mw req) (RedirectInfo.pattern r) = Ok p /\
    r' = RedirectInfo.set_pattern r p.
Proof.
  induction l as [|x l IH]; simpl; intros H.
  - discriminate.
  - destruct (ruleMatches mw req x) as [b|e] eqn:Hx.
    + destruct (matchRedirect_of_ruleMatches _ _ _ _ Hx) as (p & Hp & Hm).
      rewrite Hm in H. simpl in H. destruct b.
      * injection H as <-. exists x, p. auto.
      * destruct (IH H) as (r & q & Hin & ?). exists r, q. auto.
    + rewrite (ruleMatches_raises _ _ _ _ Hx) in H. discriminate.
Qed.

Lemma getRedirects_Some (mw : Middleware) (req : NextRequest) (siteName : string)
    (r' : RedirectInfo.t) :
  getRedirects mw req siteName = Ok (Some r') ->
  exists l r p,
    get mw siteName = ReadJsonArray l /\ In r l /\
    ruleMatches mw req r = Ok true /\
    compilePattern (getLanguage mw req) (RedirectInfo.pattern r) = Ok p /\
    r' = RedirectInfo.set_pattern r p.
Proof.
  intros H. destruct (get mw siteName) as [ | | | |t z n|l] eqn:Hget.
  1-5: unfold getRedirects in H; rewrite Hget in H;
       try discriminate; destruct t, z, n; discriminate.
  rewrite (getRedirects_array _ _ _ _ Hget) in H.
  destruct (find_Some _ _ _ _ H) as (r & p & ?). exists l, r, p. auto.
Qed.

(** The handler never raises: whatever [edgeConfigHandler] does, it
    returns a response. *)
Lemma getHandler_total (mw : Middleware) (req : NextRequest) :
  exists response, getHandler mw req = Ok response.
Proof. unfold getHandler. destruct (edgeConfigHandler mw req); eauto. Qed.

(** When no rule is found, or the search raises, the request passes. *)
Lemma getHandler_no_rule (mw : Middleware) (req : NextRequest) :
  (getRedirects mw req (name (getSite mw req)) = Ok None \/
   exists e, getRedirects mw req (name (getSite mw req)) = Throw e) ->
  getHandler mw req = Ok Pass.
Proof.
  intros H. unfold getHandler, edgeConfigHandler, createResponse.
  destruct (skipped mw req); [reflexivity|].
  destruct H as [-> | (e & ->)]; reflexivity.
Qed.

End MatcherFacts.

(** ** Matching, locale filter, classification and failures *)

Section Resolution.

Context {P : Platform}.






(** C3.  A rule whose [locale] is set does not satisfy the match
    condition of a request whose locale differs from it up to case,
    whatever its pattern matches, and [getRedirects] never returns a rule
    with that locale; when the two locales agree up to case, the match
    condition is the match of the pattern. *)
Theorem locale_filter (mw : Middleware) (req : NextRequest)
    (r : RedirectInfo.t) (l : string) :
  RedirectInfo.locale r = Some l ->
  l <> "" ->
  (String_toLowerCase l <> String_toLowerCase (NextURL.locale (nextUrl req)) ->
   ruleMatches mw req r <> Ok true /\
   (forall b, patternMatches mw req r = Ok b -> ruleMatches mw req r = Ok false) /\
   (forall siteName r',
       getRedirects mw req siteName = Ok (Some r') -> RedirectInfo.locale r' <> Some l))
  /\
  (String_toLowerCase l = String_toLowerCase (NextURL.locale (nextUrl req)) ->
   ruleMatches mw req r = patternMatches mw req r).
Proof.
  intros Hl Hset.
  assert (Hfilter : forall x, RedirectInfo.locale x = Some l ->
            localeFilter req x =
            String.eqb (String_toLowerCase l)
                       (String_toLowerCase (NextURL.locale (nextUrl req)))).
  { intros x Hx. unfold localeFilter. rewrite Hx.
    destruct (String.eqb_spec l ""); [contradiction | reflexivity]. }
  split.
  - intros Hdiff. apply String.eqb_neq in Hdiff.
    assert (Hno : forall x, RedirectInfo.locale x = Some l ->
              ruleMatches mw req x <> Ok true).
    { intros x Hx. rewrite ruleMatches_unfold, (Hfilter x Hx), Hdiff.
      destruct (patternMatches mw req x) as [b|e]; cbn [bind];
        [rewrite andb_false_r|]; discriminate. }
    split; [exact (Hno r Hl)|]. split.
    + intros b Hb. rewrite ruleMatches_unfold, Hb, (Hfilter r Hl), Hdiff.
      cbn [bind]. now rewrite andb_false_r.
    + intros siteName r' Hfound Hl'.
      destruct (getRedirects_Some mw req siteName r' Hfound)
        as (cat & r0 & p & _ & _ & Hm & _ & ->).
      exact (Hno r0 Hl' Hm).
  - intros Hsame. rewrite ruleMatches_unfold, (Hfilter r Hl), Hsame, String.eqb_refl.
    destruct (patternMatches mw req r) as [b|e]; cbn [bind];
      [now rewrite andb_true_r | reflexivity].
Qed.

(** The response for the rule [getRedirects] returned. *)
Lemma getHandler_found (mw : Middleware) (req : NextRequest) (r : RedirectInfo.t) :
  skipped mw req = false ->
  getRedirects mw req (name (getSite mw req)) = Ok (Some r) ->
  getHandler mw req =
  match redirectUrl mw req (hostnameOf mw req) (getSite mw req) r with
  | Ok u => Ok (classify (RedirectInfo.redirectType r) u)
  | Throw _ => Ok Pass
  end.
Proof.
  intros Hskip Hfound. unfold getHandler, edgeConfigHandler, createResponse.
  rewrite Hskip, Hfound. cbn [bind].
  destruct (redirectUrl mw req (hostnameOf mw req) (getSite mw req) r);
    reflexivity.
Qed.

Lemma classify_other (redirectType u : string) :
  redirectType <> REDIRECT_TYPE_301 ->
  redirectType <> REDIRECT_TYPE_302 ->
  redirectType <> REDIRECT_TYPE_SERVER_TRANSFER ->
  classify redirectType u = Pass.
Proof.
  intros H1 H2 H3. unfold classify.
  apply String.eqb_neq in H1, H2, H3. now rewrite H1, H2, H3.
Qed.

(** C4.  For the rule [getRedirects] returned, the response follows its
    redirect type: once the URL of the response is computed, type 301
    gives a redirect with status 301, type 302 a redirect with status 302,
    a server transfer gives a rewrite; any other type gives [Pass]. *)
Theorem outcome_by_redirect_type (mw : Middleware) (req : NextRequest)
    (r : RedirectInfo.t) :
  skipped mw req = false ->
  getRedirects mw req (name (getSite mw req)) = Ok (Some r) ->
  (forall u,
      redirectUrl mw req (hostnameOf mw req) (getSite mw req) r = Ok u ->
      (RedirectInfo.redirectType r = REDIRECT_TYPE_301 ->
       getHandler mw req = Ok (Redirect u 301 "Moved Permanently")) /\
      (RedirectInfo.redirectType r = REDIRECT_TYPE_302 ->
       getHandler mw req = Ok (Redirect u 302 "Found")) /\
      (RedirectInfo.redirectType r = REDIRECT_TYPE_SERVER_TRANSFER ->
       getHandler mw req = Ok (Rewrite u)))
  /\
  (RedirectInfo.redirectType r <> REDIRECT_TYPE_301 ->
   RedirectInfo.redirectType r <> REDIRECT_TYPE_302 ->
   RedirectInfo.redirectType r <> REDIRECT_TYPE_SERVER_TRANSFER ->
   getHandler mw req = Ok Pass).
Proof.
  intros Hskip Hfound.
  pose proof (getHandler_found mw req r Hskip Hfound) as Hh.
  split.
  - intros u Hu. rewrite Hh, Hu. unfold classify.
    repeat split; intros ->; reflexivity.
  - intros H1 H2 H3. rewrite Hh.
    destruct (redirectUrl mw req (hostnameOf mw req) (getSite mw req) r);
      [|reflexivity].
    f_equal. exact (classify_other _ a H1 H2 H3).
Qed.

(** C5, as amended.  A rule whose rewritten pattern is refused by
    [regexParser], reached because no rule before it matched, makes
    [getRedirects] raise: no rule after it is evaluated, whatever it is,
    and the handler answers [Pass]. *)
Theorem compile_failure_aborts (mw : Middleware) (req : NextRequest)
    (l1 : list RedirectInfo.t) (r : RedirectInfo.t) (l2 : list RedirectInfo.t)
    (p : string) (e : JsError) :
  get mw (name (getSite mw req)) = ReadJsonArray (l1 ++ r :: l2)%list ->
  Forall (fun x => ruleMatches mw req x = Ok false) l1 ->
  compilePattern (getLanguage mw req) (RedirectInfo.pattern r) = Ok p ->
  regexParser p = Throw e ->
  getRedirects mw req (name (getSite mw req)) = Throw e /\
  getHandler mw req = Ok Pass.
Proof.
  intros Hget Hl1 Hp Hre.
  assert (Hraise : getRedirects mw req (name (getSite mw req)) = Throw e).
  { rewrite (getRedirects_array mw req _ _ Hget), (find_skips mw req l1 (r :: l2) Hl1).
    cbn [find]. rewrite matchRedirect_unfold, Hp. cbn [bind].
    rewrite (testCandidates_raises p e req Hre). reflexivity. }
  split; [exact Hraise|]. apply getHandler_no_rule. right. now exists e.
Qed.

(** C6.  When the read of the catalog fails, or gives nothing, an empty
    string, a string that is not JSON, a value that is not an array, or an
    empty array, the handler returns [Pass], and returns it normally. *)
Theorem catalog_unavailable_passes (mw : Middleware) (req : NextRequest) :
  catalogUnavailable (get mw (name (getSite mw req))) ->
  getHandler mw req = Ok Pass.
Proof.
  intros H. apply getHandler_no_rule. unfold getRedirects.
  destruct (get mw (name (getSite mw req))) as [ | | | |t z n|l].
  - right. now exists EdgeConfigError.
  - now left.
  - now left.
  - right. now exists SyntaxError.
  - destruct t, z, n; cbn; try (now left); right; now exists TypeError.
  - destruct l; [now left | contradiction].
Qed.

(** X3.  A catalog whose rules all have a redirect type other than the
    three of the [switch] never produces a redirect or a rewrite,
    whatever its patterns match. *)
Lemma unrecognized_types_pass (mw : Middleware) (req : NextRequest)
    (catalog : list RedirectInfo.t) :
  get mw (name (getSite mw req)) = ReadJsonArray catalog ->
  Forall (fun r =>
            RedirectInfo.redirectType r <> REDIRECT_TYPE_301 /\
            RedirectInfo.redirectType r <> REDIRECT_TYPE_302 /\
            RedirectInfo.redirectType r <> REDIRECT_TYPE_SERVER_TRANSFER)
         catalog ->
  getHandler mw req = Ok Pass.
Proof.
  intros Hget Hall.
  destruct (skipped mw req) eqn:Hskip.
  { unfold getHandler, edgeConfigHandler, createResponse. now rewrite Hskip. }
  destruct (getRedirects mw req (name (getSite mw req))) as [[r'|]|e] eqn:Hfound.
  - rewrite (getHandler_found mw req r' Hskip Hfound).
    destruct (redirectUrl mw req (hostnameOf mw req) (getSite mw req) r');
      [|reflexivity].
    destruct (getRedirects_Some mw req _ r' Hfound)
      as (l & r & p & Hl & Hin & _ & _ & ->).
    rewrite Hget in Hl. injection Hl as <-.
    rewrite Forall_forall in Hall. destruct (Hall r Hin) as (H1 & H2 & H3).
    f_equal. exact (classify_other _ a H1 H2 H3).
  - apply getHandler_no_rule. now left.
  - apply getHandler_no_rule. right. now exists e.
Qed.

End Resolution.

(** ** The [$siteLang] token and absolute targets *)

Lemma lowerAscii_dollar (c : ascii) :
  Ascii.eqb "$" (Js.lowerAscii c) = true -> c = "$"%char.
Proof.
  destruct c as [[] [] [] [] [] [] [] []]; vm_compute; intros H;
    (reflexivity || discriminate).
Qed.

(** A match of [/\$siteLang/i] starts at a dollar sign. *)
Lemma siteLangSearch_Some (acc s before matched after : string) :
  siteLangSearch acc s = Some (before, matched, after) ->
  exists pre tail,
    s = pre ++ String "$" tail /\ before = acc ++ pre /\
    Js.stripPrefixCi "$sitelang" (String "$" tail) = Some after.
Proof.
  revert acc. induction s as [|c s IH]; intros acc H.
  - discriminate.
  - cbn [siteLangSearch] in H.
    destruct (Js.stripPrefixCi "$sitelang" (String c s)) as [a|] eqn:E.
    + injection H as <- _ <-.
      assert (c = "$"%char) as ->.
      { cbn [Js.stripPrefixCi] in E.
        destruct (Ascii.eqb "$" (Js.lowerAscii c)) eqn:Ec; [|discriminate].
        exact (lowerAscii_dollar c Ec). }
      exists "", s. rewrite append_empty_r. auto.
    + destruct (IH _ H) as (pre & tail & -> & -> & Ht).
      exists (String c pre), tail. rewrite append_assoc. auto.
Qed.

(** A prefix without dollar sign is kept when what follows the first
    dollar sign changes. *)
Lemma startsWith_before_dollar (q pre tail y : string) :
  Js.hasChar "$" q = false ->
  Js.startsWith q (pre ++ String "$" tail) = true ->
  Js.startsWith q (pre ++ y) = true.
Proof.
  revert pre. induction q as [|a q IH]; intros pre Hq H.
  - reflexivity.
  - cbn [Js.hasChar] in Hq. apply orb_false_iff in Hq as [Ha Hq].
    destruct pre as [|b pre]; cbn [append Js.startsWith] in *.
    + rewrite Ha in H. discriminate.
    + apply andb_true_iff in H as [Hab H]. rewrite Hab. cbn [andb].
      exact (IH pre Hq H).
Qed.

Lemma dropLetters_before_dollar (pre tail y : string) :
  Js.startsWith "://" (dropLetters (pre ++ String "$" tail)) = true ->
  Js.startsWith "://" (dropLetters (pre ++ y)) = true.
Proof.
  induction pre as [|c pre IH]; intros H.
  - discriminate.
  - cbn [append dropLetters] in *. destruct (Js.isAsciiLetter c).
    + exact (IH H).
    + change (String c (pre ++ y)) with (String c pre ++ y).
      change (String c (pre ++ String "$" tail))
        with (String c pre ++ String "$" tail) in H.
      exact (startsWith_before_dollar "://" (String c pre) tail y eq_refl H).
Qed.

Lemma absolute_before_dollar (pre tail y : string) :
  REGEXP_ABSOLUTE_URL_test (pre ++ String "$" tail) = true ->
  REGEXP_ABSOLUTE_URL_test (pre ++ y) = true.
Proof.
  unfold REGEXP_ABSOLUTE_URL_test. intros H.
  apply orb_true_iff in H as [H|H]; apply orb_true_iff.
  - left. exact (startsWith_before_dollar "//" pre tail y eq_refl H).
  - right. apply andb_true_iff in H as [Hc H]. apply andb_true_iff. split.
    + destruct pre; [discriminate | exact Hc].
    + exact (dropLetters_before_dollar pre tail y H).
Qed.

(** Lines 87-98 leave an absolute target absolute. *)
Lemma absolute_after_siteLang (hostname : string) (site : SiteInfo) (target : string) :
  REGEXP_ABSOLUTE_URL_test target = true ->
  REGEXP_ABSOLUTE_URL_test (substituteSiteLang hostname site target) = true.
Proof.
  intros H. unfold substituteSiteLang.
  destruct (REGEXP_CONTEXT_SITE_LANG_test target
            && negb (REGEXP_ABSOLUTE_URL_test target && Js.includes hostname target));
    [|exact H].
  unfold REGEXP_CONTEXT_SITE_LANG_replace.
  destruct (siteLangSearch "" target) as [[[b m] a]|] eqn:E; [|exact H].
  destruct (siteLangSearch_Some "" target b m a E) as (pre & tail & -> & -> & _).
  cbn [append]. exact (absolute_before_dollar pre tail _ H).
Qed.

(** ** The URL of the response *)

Section Rewriting.

Context {P : Platform}.

Lemma fold_append_fields (kvs : list (string * string)) (u : NextURL.t) :
  NextURL.locale (fold_left searchParams_append kvs u) = NextURL.locale u /\
  NextURL.pathname (fold_left searchParams_append kvs u) = NextURL.pathname u /\
  NextURL.searchParams (fold_left searchParams_append kvs u)
    = (NextURL.searchParams u ++ kvs)%list.
Proof.
  revert u. induction kvs as [|kv kvs IH]; intros u; cbn [fold_left].
  - rewrite app_nil_r. auto.
  - destruct (IH (searchParams_append u kv)) as (-> & -> & ->).
    cbn. rewrite <- app_assoc. auto.
Qed.

Lemma assemble_fields (url : NextURL.t) (pieces : list string) :
  NextURL.locale (assemble url pieces) = NextURL.locale url /\
  NextURL.pathname (assemble url pieces) = URL_pathname (nth 0 pieces "") /\
  NextURL.searchParams (assemble url pieces)
    = (NextURL.searchParams url ++ addedParams pieces)%list.
Proof.
  unfold assemble, addedParams.
  destruct (nth_error pieces 1) as [q|]; [destruct (String.eqb q "")|];
    try (cbn; rewrite app_nil_r; now auto).
  destruct (fold_append_fields (URLSearchParams q)
              (set_pathname url (nth 0 pieces ""))) as (-> & -> & ->).
  auto.
Qed.

(** What the setter of [locale] does when it does not throw. *)
Lemma set_locale_Ok (u v : NextURL.t) (l : string) :
  NextURL.set_locale u l = Ok v ->
  NextURL.locale u <> "" /\
  Js.arrayIncludes (NextURL.i18n_locales u) l = true /\
  v = NextURL.mk (NextURL.origin u) l (NextURL.defaultLocale u) (NextURL.pathname u)
        (NextURL.search u) (NextURL.searchParams u) (NextURL.hash u)
        (NextURL.i18n_locales u).
Proof.
  unfold NextURL.set_locale.
  destruct (String.eqb_spec (NextURL.locale u) "") as [E|E]; [discriminate|].
  destruct (Js.arrayIncludes (NextURL.i18n_locales u) l); [|discriminate].
  cbn [orb negb]. intros H. now injection H as <-.
Qed.

Lemma set_locale_accepted (u : NextURL.t) (l : string) :
  NextURL.locale u <> "" ->
  Js.arrayIncludes (NextURL.i18n_locales u) l = true ->
  NextURL.set_locale u l
  = Ok (NextURL.mk (NextURL.origin u) l (NextURL.defaultLocale u) (NextURL.pathname u)
          (NextURL.search u) (NextURL.searchParams u) (NextURL.hash u)
          (NextURL.i18n_locales u)).
Proof.
  intros Hl Hin. unfold NextURL.set_locale.
  apply String.eqb_neq in Hl. now rewrite Hl, Hin.
Qed.

Lemma set_locale_refused (u : NextURL.t) (l : string) :
  NextURL.locale u = "" \/ Js.arrayIncludes (NextURL.i18n_locales u) l = false ->
  NextURL.set_locale u l = Throw TypeError.
Proof.
  intros [H|H]; unfold NextURL.set_locale; rewrite H;
    [reflexivity | now rewrite orb_true_r].
Qed.

(** Lines 107-111 by the first segment of the target. *)
Lemma localeOverride_unfold (regions : list string) (url : NextURL.t)
    (target : string) :
  localeOverride regions url target =
  match regionSegment regions target with
  | Some urlFirstPart =>
      v <- NextURL.set_locale url urlFirstPart ;;
      Ok (v, strippedTarget regions target)
  | None => Ok (url, strippedTarget regions target)
  end.
Proof.
  unfold localeOverride, strippedTarget, regionSegment.
  destruct (nth_error (Js.split "/" target) 1) as [p|]; [|reflexivity].
  destruct (Js.arrayIncludes regions p); reflexivity.
Qed.

Lemma regionSegment_Some (regions : list string) (target p : string) :
  regionSegment regions target = Some p <->
  nth_error (Js.split "/" target) 1 = Some p /\ Js.arrayIncludes regions p = true.
Proof.
  unfold regionSegment. split.
  - destruct (nth_error (Js.split "/" target) 1) as [q|]; [|discriminate].
    destruct (Js.arrayIncludes regions q) eqn:E; [|discriminate].
    intros H. injection H as ->. auto.
  - intros [-> ->]. reflexivity.
Qed.

Lemma regionSegment_None (regions : list string) (target : string) :
  regionSegment regions target = None <->
  (forall p, nth_error (Js.split "/" target) 1 = Some p ->
             Js.arrayIncludes regions p = false).
Proof.
  unfold regionSegment. split.
  - destruct (nth_error (Js.split "/" target) 1) as [q|]; [|discriminate].
    destruct (Js.arrayIncludes regions q) eqn:E; [discriminate|].
    intros _ p Hp. now injection Hp as <-.
  - intros H. destruct (nth_error (Js.split "/" target) 1) as [q|]; [|reflexivity].
    now rewrite (H q eq_refl).
Qed.

(** The URL that lines 107-111 leave is the one they were given, but for
    its locale. *)
Lemma localeOverride_Ok (regions : list string) (url v : NextURL.t)
    (target t : string) :
  localeOverride regions url target = Ok (v, t) ->
  t = strippedTarget regions target /\
  NextURL.origin v = NextURL.origin url /\
  NextURL.defaultLocale v = NextURL.defaultLocale url /\
  NextURL.hash v = NextURL.hash url /\
  NextURL.search v = NextURL.search url /\
  NextURL.searchParams v = NextURL.searchParams url /\
  ((regionSegment regions target = None /\ v = url) \/
   (exists p, regionSegment regions target = Some p /\
              NextURL.set_locale url p = Ok v /\ NextURL.locale v = p)).
Proof.
  rewrite localeOverride_unfold.
  destruct (regionSegment regions target) as [p|] eqn:E.
  - destruct (NextURL.set_locale url p) as [w|e] eqn:Hw; cbn [bind]; [|discriminate].
    intros H. injection H as <- <-.
    destruct (set_locale_Ok url w p Hw) as (_ & _ & ->). cbn.
    repeat (split; [reflexivity|]). right. exists p. auto.
  - intros H. injection H as <- <-.
    repeat (split; [reflexivity|]). left. auto.
Qed.

Lemma rewriteRelative_unfold (mw : Middleware) (url : NextURL.t)
    (r : RedirectInfo.t) (target : string) :
  rewriteRelative mw url r target =
  (x <- localeOverride (regions mw) (queryKept url r) target ;;
   re <- regexParser (RedirectInfo.pattern r) ;;
   Ok (substituteIn (fst x) (NextURL.pathname url ++ NextURL.search url) re (snd x))).
Proof.
  unfold rewriteRelative, queryKept, substituteIn.
  destruct (localeOverride _ _ _) as [[v t]|e]; reflexivity.
Qed.

(** A URL that is built was built from the URL lines 106-111 left, by
    the substitution of the target they left. *)
Lemma rewriteRelative_Ok (mw : Middleware) (url : NextURL.t)
    (r : RedirectInfo.t) (target : string) (u : NextURL.t) :
  rewriteRelative mw url r target = Ok u ->
  exists v re,
    localeOverride (regions mw) (queryKept url r) target
    = Ok (v, strippedTarget (regions mw) target) /\
    regexParser (RedirectInfo.pattern r) = Ok re /\
    u = substituteIn v (NextURL.pathname url ++ NextURL.search url) re
          (strippedTarget (regions mw) target).
Proof.
  rewrite rewriteRelative_unfold.
  destruct (localeOverride (regions mw) (queryKept url r) target)
    as [[v t]|e] eqn:Hlo; cbn [bind fst snd]; [|discriminate].
  destruct (regexParser (RedirectInfo.pattern r)) as [re|e]; cbn [bind];
    [|discriminate].
  intros H. injection H as <-.
  destruct (localeOverride_Ok _ _ _ _ _ Hlo) as (-> & _).
  exists v, re. auto.
Qed.

(** X2.  The entries of [url.searchParams] when lines 105-123 have built
    the URL for a relative target: the entries of the request when the
    rule preserves the query string, then the entries read behind the
    first question mark of the substituted string. *)
Lemma query_merge (mw : Middleware) (url : NextURL.t) (r : RedirectInfo.t)
    (target : string) (re : RegExp) (u : NextURL.t) :
  PlatformLaws P ->
  regexParser (RedirectInfo.pattern r) = Ok re ->
  rewriteRelative mw url r target = Ok u ->
  NextURL.searchParams u =
  ((if RedirectInfo.isQueryStringPreserved r
    then URLSearchParams (NextURL.search url) else [])
   ++ addedParams
        (Js.split "?"
           (collapseLeadingSlashes
              (String_replace (NextURL.pathname url ++ NextURL.search url) re
                 (strippedTarget (regions mw) target)))))%list.
Proof.
  intros L Hre Hu.
  destruct (rewriteRelative_Ok mw url r target u Hu) as (v & re' & Hlo & Hre' & ->).
  rewrite Hre in Hre'. injection Hre' as <-.
  unfold substituteIn.
  destruct (assemble_fields v
              (Js.split "?"
                 (collapseLeadingSlashes
                    (String_replace (NextURL.pathname url ++ NextURL.search url) re
                       (strippedTarget (regions mw) target)))))
    as (_ & _ & ->).
  f_equal.
  destruct (localeOverride_Ok _ _ _ _ _ Hlo) as (_ & _ & _ & _ & _ & -> & _).
  unfold queryKept, set_search. cbn [NextURL.searchParams].
  destruct (RedirectInfo.isQueryStringPreserved r);
    [reflexivity | apply URLSearchParams_empty].
Qed.

End Rewriting.

Section ResponseUrl.

Context {P : Platform}.

(** The pattern of the rule [getRedirects] returns is parsed by
    [regexParser] and matches one of the candidates. *)
Lemma getRedirects_Some_parsed (mw : Middleware) (req : NextRequest)
    (siteName : string) (r : RedirectInfo.t) :
  getRedirects mw req siteName = Ok (Some r) ->
  exists re,
    regexParser (RedirectInfo.pattern r) = Ok re /\
    existsb (RegExp_test re) (candidates req) = true /\
    localeFilter req r = true.
Proof.
  intros H.
  destruct (getRedirects_Some mw req siteName r H)
    as (cat & r0 & p & _ & _ & Hm & Hp & ->).
  rewrite ruleMatches_unfold in Hm. unfold patternMatches in Hm.
  rewrite Hp in Hm. cbn [bind] in Hm.
  destruct (testCandidates p (candidates req)) as [b|e] eqn:Ht; [|discriminate].
  cbn [bind] in Hm. injection Hm as Hm. apply andb_true_iff in Hm as [-> Hf].
  destruct (testCandidates_Ok p req true Ht) as (re & Hre & Hex).
  exists re. auto.
Qed.

(** When the URL of the response cannot be computed for the rule
    [getRedirects] returned, the request passes. *)
Lemma getHandler_url_raises (mw : Middleware) (req : NextRequest)
    (r : RedirectInfo.t) (e : JsError) :
  getRedirects mw req (name (getSite mw req)) = Ok (Some r) ->
  redirectUrl mw req (hostnameOf mw req) (getSite mw req) r = Throw e ->
  getHandler mw req = Ok Pass.
Proof.
  intros Hfound Hu. unfold getHandler, edgeConfigHandler, createResponse.
  destruct (skipped mw req); [reflexivity|].
  rewrite Hfound. cbn [bind]. now rewrite Hu.
Qed.

(** C8, as amended.  For the rule [getRedirects] returned, when the
    target left by the [$siteLang] step of lines 87-98 is an absolute URL,
    it is assigned as a whole to [url.href] and the URL of the response
    is what [url.href] then reads, decoded once: the pattern is not
    substituted, no segment is taken off as a region, no query is merged.
    When the URL parser reads the target back as it is written and the
    target holds nothing to decode, the URL of the response is the target
    verbatim, and the response carries it.  When the URL parser refuses
    the target, the request passes.  A target without token is left as
    it is by the [$siteLang] step, which keeps an absolute target
    absolute. *)
Theorem absolute_target (mw : Middleware) (req : NextRequest) (r : RedirectInfo.t) :
  REGEXP_ABSOLUTE_URL_test
    (substituteSiteLang (hostnameOf mw req) (getSite mw req) (RedirectInfo.target r))
  = true ->
  rewriteUrl mw req r
    (substituteSiteLang (hostnameOf mw req) (getSite mw req) (RedirectInfo.target r))
  = NextURL_set_href (nextUrl req)
      (substituteSiteLang (hostnameOf mw req) (getSite mw req) (RedirectInfo.target r))
  /\
  redirectUrl mw req (hostnameOf mw req) (getSite mw req) r
  = (u <- NextURL_set_href (nextUrl req)
            (substituteSiteLang (hostnameOf mw req) (getSite mw req)
               (RedirectInfo.target r)) ;;
     decodeURIComponent (NextURL_href u))
  /\
  (forall u,
      NextURL_set_href (nextUrl req)
        (substituteSiteLang (hostnameOf mw req) (getSite mw req) (RedirectInfo.target r))
      = Ok u ->
      NextURL_href u
      = substituteSiteLang (hostnameOf mw req) (getSite mw req) (RedirectInfo.target r) ->
      decodeURIComponent
        (substituteSiteLang (hostnameOf mw req) (getSite mw req) (RedirectInfo.target r))
      = Ok (substituteSiteLang (hostnameOf mw req) (getSite mw req)
              (RedirectInfo.target r)) ->
      redirectUrl mw req (hostnameOf mw req) (getSite mw req) r
      = Ok (substituteSiteLang (hostnameOf mw req) (getSite mw req)
              (RedirectInfo.target r)) /\
      (skipped mw req = false ->
       getRedirects mw req (name (getSite mw req)) = Ok (Some r) ->
       getHandler mw req
       = Ok (classify (RedirectInfo.redirectType r)
               (substituteSiteLang (hostnameOf mw req) (getSite mw req)
                  (RedirectInfo.target r)))))
  /\
  (forall e,
      NextURL_set_href (nextUrl req)
        (substituteSiteLang (hostnameOf mw req) (getSite mw req) (RedirectInfo.target r))
      = Throw e ->
      redirectUrl mw req (hostnameOf mw req) (getSite mw req) r = Throw e /\
      (getRedirects mw req (name (getSite mw req)) = Ok (Some r) ->
       getHandler mw req = Ok Pass))
  /\
  (REGEXP_CONTEXT_SITE_LANG_test (RedirectInfo.target r) = false ->
   substituteSiteLang (hostnameOf mw req) (getSite mw req) (RedirectInfo.target r)
   = RedirectInfo.target r)
  /\
  (REGEXP_ABSOLUTE_URL_test (RedirectInfo.target r) = true ->
   REGEXP_ABSOLUTE_URL_test
     (substituteSiteLang (hostnameOf mw req) (getSite mw req) (RedirectInfo.target r))
   = true).
Proof.
  set (t := substituteSiteLang (hostnameOf mw req) (getSite mw req)
              (RedirectInfo.target r)).
  intros Habs.
  assert (Hurl : rewriteUrl mw req r t = NextURL_set_href (nextUrl req) t).
  { unfold rewriteUrl, NextURL.clone. now rewrite Habs. }
  assert (Hred : redirectUrl mw req (hostnameOf mw req) (getSite mw req) r
                 = (u <- NextURL_set_href (nextUrl req) t ;;
                    decodeURIComponent (NextURL_href u))).
  { unfold redirectUrl. fold t. now rewrite Hurl. }
  split; [exact Hurl|]. split; [exact Hred|]. split; [|split; [|split]].
  - intros u Hu Hhref Hdec.
    assert (Hv : redirectUrl mw req (hostnameOf mw req) (getSite mw req) r = Ok t).
    { rewrite Hred, Hu. cbn [bind]. now rewrite Hhref. }
    split; [exact Hv|].
    intros Hskip Hfound. now rewrite (getHandler_found mw req r Hskip Hfound), Hv.
  - intros e He.
    assert (Hv : redirectUrl mw req (hostnameOf mw req) (getSite mw req) r = Throw e).
    { rewrite Hred, He. reflexivity. }
    split; [exact Hv|].
    intros Hfound. exact (getHandler_url_raises mw req r e Hfound Hv).
  - intros H. unfold t, substituteSiteLang. now rewrite H.
  - intros H. exact (absolute_after_siteLang _ _ _ H).
Qed.

(** Lines 107-111 inside [rewriteRelative]: the cases of the first
    segment of the target. *)
Lemma rewriteRelative_locale (mw : Middleware) (url : NextURL.t) (r : RedirectInfo.t)
    (target : string) (re : RegExp) :
  regexParser (RedirectInfo.pattern r) = Ok re ->
  (forall urlFirstPart,
      nth_error (Js.split "/" target) 1 = Some urlFirstPart ->
      Js.arrayIncludes (regions mw) urlFirstPart = true ->
      exists a rest,
        target = a ++ "/" ++ urlFirstPart ++ rest /\
        Js.hasChar "/" a = false /\
        (NextURL.locale url <> "" ->
         Js.arrayIncludes (NextURL.i18n_locales url) urlFirstPart = true ->
         exists v u,
           NextURL.set_locale (queryKept url r) urlFirstPart = Ok v /\
           rewriteRelative mw url r target = Ok u /\
           u = substituteIn v (NextURL.pathname url ++ NextURL.search url) re
                 (a ++ rest) /\
           NextURL.locale u = urlFirstPart) /\
        (NextURL.locale url = "" \/
         Js.arrayIncludes (NextURL.i18n_locales url) urlFirstPart = false ->
         rewriteRelative mw url r target = Throw TypeError))
  /\
  ((forall urlFirstPart,
       nth_error (Js.split "/" target) 1 = Some urlFirstPart ->
       Js.arrayIncludes (regions mw) urlFirstPart = false) ->
   exists u,
     rewriteRelative mw url r target = Ok u /\
     u = substituteIn (queryKept url r)
           (NextURL.pathname url ++ NextURL.search url) re target /\
     NextURL.locale u = NextURL.locale url).
Proof.
  intros Hre. split.
  - intros p Hp Hin.
    destruct (second_piece target p Hp) as (a & rest & Ht & Ha & _ & _).
    exists a, rest. split; [exact Ht|]. split; [exact Ha|].
    assert (Hseg : regionSegment (regions mw) target = Some p)
      by (apply regionSegment_Some; auto).
    assert (Hrm : strippedTarget (regions mw) target = a ++ rest).
    { unfold strippedTarget. rewrite Hseg. rewrite Ht at 1.
      exact (replaceFirst_after p "" a rest "/" Ha). }
    rewrite rewriteRelative_unfold, localeOverride_unfold, Hseg, Hrm. split.
    + intros Hl Hi.
      rewrite (set_locale_accepted (queryKept url r) p Hl Hi). cbn [bind fst snd].
      rewrite Hre. cbn [bind].
      eexists. eexists. split; [reflexivity|]. split; [reflexivity|].
      split; [reflexivity|].
      unfold substituteIn.
      now destruct (assemble_fields
                      (NextURL.mk (NextURL.origin (queryKept url r)) p
                         (NextURL.defaultLocale (queryKept url r))
                         (NextURL.pathname (queryKept url r))
                         (NextURL.search (queryKept url r))
                         (NextURL.searchParams (queryKept url r))
                         (NextURL.hash (queryKept url r))
                         (NextURL.i18n_locales (queryKept url r)))
                      (Js.split "?"
                         (collapseLeadingSlashes
                            (String_replace
                               (NextURL.pathname url ++ NextURL.search url) re
                               (a ++ rest))))) as (-> & _).
    + intros Hno.
      now rewrite (set_locale_refused (queryKept url r) p Hno).
  - intros Hout.
    assert (Hseg : regionSegment (regions mw) target = None)
      by (apply regionSegment_None; exact Hout).
    rewrite rewriteRelative_unfold, localeOverride_unfold.
    unfold strippedTarget. rewrite Hseg. cbn [bind fst snd]. rewrite Hre.
    cbn [bind]. eexists. split; [reflexivity|]. split; [reflexivity|].
    unfold substituteIn.
    now destruct (assemble_fields (queryKept url r)
                    (Js.split "?"
                       (collapseLeadingSlashes
                          (String_replace
                             (NextURL.pathname url ++ NextURL.search url) re
                             target)))) as (-> & _).
Qed.



(** C9, as amended.  For the rule [getRedirects] returned and a target
    that is not absolute: when the first segment of the target, the
    second piece of [target.split('/')], is one of the regions, line 109
    assigns it to the locale of the URL.  If the URL has a locale and its
    configuration lists the segment, the segment becomes the locale of
    the URL of the response and the target is substituted without it; if
    not, the assignment throws, no URL is built and the request passes.
    When the segment is not one of the regions (or the target has no
    slash), the target is substituted as it is and the locale of the URL
    is the one of the request. *)
Theorem locale_segment (mw : Middleware) (req : NextRequest) (siteName : string)
    (r : RedirectInfo.t) (target : string) :
  getRedirects mw req siteName = Ok (Some r) ->
  REGEXP_ABSOLUTE_URL_test target = false ->
  exists re,
    regexParser (RedirectInfo.pattern r) = Ok re /\
    (forall urlFirstPart,
        nth_error (Js.split "/" target) 1 = Some urlFirstPart ->
        Js.arrayIncludes (regions mw) urlFirstPart = true ->
        exists a rest,
          target = a ++ "/" ++ urlFirstPart ++ rest /\
          Js.hasChar "/" a = false /\
          (NextURL.locale (nextUrl req) <> "" ->
           Js.arrayIncludes (NextURL.i18n_locales (nextUrl req)) urlFirstPart = true ->
           exists v u,
             NextURL.set_locale (queryKept (nextUrl req) r) urlFirstPart = Ok v /\
             rewriteUrl mw req r target = Ok u /\
             u = substituteIn v
                   (NextURL.pathname (nextUrl req) ++ NextURL.search (nextUrl req))
                   re (a ++ rest) /\
             NextURL.locale u = urlFirstPart) /\
          (NextURL.locale (nextUrl req) = "" \/
           Js.arrayIncludes (NextURL.i18n_locales (nextUrl req)) urlFirstPart = false ->
           rewriteUrl mw req r target = Throw TypeError /\
           (siteName = name (getSite mw req) ->
            target = substituteSiteLang (hostnameOf mw req) (getSite mw req)
                       (RedirectInfo.target r) ->
            getHandler mw req = Ok Pass)))
    /\
    ((forall urlFirstPart,
         nth_error (Js.split "/" target) 1 = Some urlFirstPart ->
         Js.arrayIncludes (regions mw) urlFirstPart = false) ->
     exists u,
       rewriteUrl mw req r target = Ok u /\
       u = substituteIn (queryKept (nextUrl req) r)
             (NextURL.pathname (nextUrl req) ++ NextURL.search (nextUrl req))
             re target /\
       NextURL.locale u = NextURL.locale (nextUrl req)).
Proof.
  intros Hfound Hrel.
  destruct (getRedirects_Some_parsed mw req siteName r Hfound) as (re & Hre & _).
  exists re. split; [exact Hre|].
  assert (Hurl : rewriteUrl mw req r target
                 = rewriteRelative mw (nextUrl req) r target).
  { unfold rewriteUrl, NextURL.clone. now rewrite Hrel. }
  rewrite Hurl.
  destruct (rewriteRelative_locale mw (nextUrl req) r target re Hre) as [Hin Hout].
  split; [|exact Hout].
  intros p Hp Hreg.
  destruct (Hin p Hp Hreg) as (a & rest & Ht & Ha & Hyes & Hno).
  exists a, rest. split; [exact Ht|]. split; [exact Ha|]. split; [exact Hyes|].
  intros Hrefused. split; [exact (Hno Hrefused)|].
  intros -> Htarget.
  apply (getHandler_url_raises mw req r TypeError Hfound).
  unfold redirectUrl. rewrite <- Htarget, Hurl, (Hno Hrefused). reflexivity.
Qed.


End ResponseUrl.

(** ** The reference platform satisfies the laws *)

Lemma reference_replace_no_match (re : Reference.RegExp) (s t : string) :
  Reference.test re s = false -> Reference.replace s re t = s.
Proof.
  unfold Reference.test, Reference.replace. cbn [Reference.replaceFrom].
  destruct (Reference.search re _ [] (list_ascii_of_string s)); intros H.
  - discriminate.
  - apply string_of_list_ascii_of_string.
Qed.

Lemma reference_laws : PlatformLaws Reference.platform.
Proof.
  split.
  - exact reference_replace_no_match.
  - reflexivity.
Qed.

(** ** Runs on the reference platform *)

(** The scenarios of the specification. *)
Example scenario_A :
  getHandler (P := Reference.platform)
    (exampleCatalog [RedirectInfo.mk "/old-page/" "/new-page/" REDIRECT_TYPE_301 false None])
    (exampleRequest "en" "/old-page/" "")
  = Ok (Redirect "https://www.site.com/new-page/" 301 "Moved Permanently").
Proof. vm_compute. reflexivity. Qed.

Example scenario_B :
  getHandler (P := Reference.platform)
    (exampleCatalog [RedirectInfo.mk "/foo/(.*)" "/bar/$1" REDIRECT_TYPE_302 false None])
    (exampleRequest "en" "/foo/abc" "")
  = Ok (Redirect "https://www.site.com/bar/abc" 302 "Found").
Proof. vm_compute. reflexivity. Qed.

Example scenario_C :
  getHandler (P := Reference.platform)
    (exampleCatalog [RedirectInfo.mk "/about" "/a-propos" REDIRECT_TYPE_301 false (Some "fr")])
    (exampleRequest "en" "/about" "")
  = Ok Pass.
Proof. vm_compute. reflexivity. Qed.

Example scenario_D :
  getHandler (P := Reference.platform)
    (exampleCatalog [RedirectInfo.mk "/x" "/y" REDIRECT_TYPE_SERVER_TRANSFER false None])
    (exampleRequest "en" "/x" "")
  = Ok (Rewrite "https://www.site.com/y").
Proof. vm_compute. reflexivity. Qed.




(** C3 on [ruleFrench], for a request in [en] and a request in [FR]. *)
Lemma locale_filter_witness :
  ruleMatches (P := Reference.platform)
    (exampleCatalog [ruleFrench]) (exampleRequest "en" "/about" "") ruleFrench
  = Ok false /\
  ruleMatches (P := Reference.platform)
    (exampleCatalog [ruleFrench]) (exampleRequest "FR" "/about" "") ruleFrench
  = patternMatches (P := Reference.platform)
      (exampleCatalog [ruleFrench]) (exampleRequest "FR" "/about" "") ruleFrench.
Proof.
  split.
  - apply (locale_filter (P := Reference.platform)
             (exampleCatalog [ruleFrench]) (exampleRequest "en" "/about" "")
             ruleFrench "fr" eq_refl ltac:(discriminate))
      with (b := true).
    + cbn. discriminate.
    + run.
  - apply (locale_filter (P := Reference.platform)
             (exampleCatalog [ruleFrench]) (exampleRequest "FR" "/about" "")
             ruleFrench "fr" eq_refl ltac:(discriminate)).
    reflexivity.
Defined.

(** C4 on the catalog [ruleB] and a request to [/old]. *)
Lemma outcome_by_redirect_type_witness :
  getHandler (P := Reference.platform)
    (exampleCatalog [ruleB]) (exampleRequest "en" "/old" "")
  = Ok (Redirect "https://www.site.com/new-b" 302 "Found").
Proof.
  apply (outcome_by_redirect_type (P := Reference.platform)
           (exampleCatalog [ruleB]) (exampleRequest "en" "/old" "")
           (RedirectInfo.set_pattern ruleB "/^/old[/]?$/gi")).
  - reflexivity.
  - run.
  - run.
  - reflexivity.
Defined.

(** C5, counterexample.  The pattern of [rulePromo] does not compile; in
    the catalog [rulePromo; ruleSale] the request to [/sale], which
    [ruleSale] matches and alone redirects, passes. *)
Lemma compile_failure_counterexample :
  compilePattern (P := Reference.platform) "en" (RedirectInfo.pattern rulePromo)
    = Ok "/^/promo([/]?$/gi" /\
  regexParser (Platform := Reference.platform) "/^/promo([/]?$/gi"
    = Throw SyntaxError /\
  ruleMatches (P := Reference.platform)
    (exampleCatalog [rulePromo; ruleSale]) (exampleRequest "en" "/sale" "") ruleSale
    = Ok true /\
  getHandler (P := Reference.platform)
    (exampleCatalog [rulePromo; ruleSale]) (exampleRequest "en" "/sale" "")
    = Ok Pass /\
  getHandler (P := Reference.platform)
    (exampleCatalog [ruleSale]) (exampleRequest "en" "/sale" "")
    = Ok (Redirect "https://www.site.com/offers" 302 "Found").
Proof. repeat split; run. Qed.

(** C5, as amended, on the catalog [ruleOther; rulePromo; ruleSale]. *)
Lemma compile_failure_aborts_witness :
  getRedirects (P := Reference.platform)
    (exampleCatalog [ruleOther; rulePromo; ruleSale]) (exampleRequest "en" "/sale" "") "site"
  = Throw SyntaxError /\
  getHandler (P := Reference.platform)
    (exampleCatalog [ruleOther; rulePromo; ruleSale]) (exampleRequest "en" "/sale" "")
  = Ok Pass.
Proof.
  apply (compile_failure_aborts (P := Reference.platform)
           (exampleCatalog [ruleOther; rulePromo; ruleSale])
           (exampleRequest "en" "/sale" "") [ruleOther] rulePromo [ruleSale]
           "/^/promo([/]?$/gi" SyntaxError).
  - reflexivity.
  - constructor; [run | constructor].
  - run.
  - run.
Defined.

(** C6 on a store item that is not JSON, a read that fails and a JSON
    string. *)
Lemma catalog_unavailable_passes_witness :
  getHandler (P := Reference.platform)
    (exampleMiddleware ReadInvalidJson) (exampleRequest "en" "/old" "")
  = Ok Pass /\
  getHandler (P := Reference.platform)
    (exampleMiddleware ReadRejected) (exampleRequest "en" "/old" "")
  = Ok Pass /\
  getHandler (P := Reference.platform)
    (exampleMiddleware (ReadJsonOther true false true)) (exampleRequest "en" "/old" "")
  = Ok Pass.
Proof.
  split; [|split];
    apply (catalog_unavailable_passes (P := Reference.platform)); exact I.
Defined.

(** C7, the failing run.  [ruleA] does not preserve the query string and
    its target [/new-a] has no query.  The request [/old?a=1] selects it
    through the candidate [/old]; its pattern does not match the source
    [/old?a=1], nothing is replaced, and the query [a=1] of the request,
    read behind the question mark of the unchanged source, is appended to
    the cleared query: the response redirects to the URL of the request,
    with the parameter the rule was to drop. *)
Lemma query_not_preserved_run :
  getRedirects (P := Reference.platform)
    (exampleCatalog [ruleA]) (exampleRequest "en" "/old" "?a=1") "site"
    = Ok (Some (RedirectInfo.set_pattern ruleA "/^/old[/]?$/gi")) /\
  testPattern (P := Reference.platform) "/^/old[/]?$/gi" "/old?a=1" = Ok false /\
  Js.hasChar "?" (RedirectInfo.target ruleA) = false /\
  rewriteUrl (P := Reference.platform)
    (exampleCatalog [ruleA]) (exampleRequest "en" "/old" "?a=1")
    (RedirectInfo.set_pattern ruleA "/^/old[/]?$/gi") "/new-a"
    = Ok (NextURL.mk "https://www.site.com" "en" "en" "/old" "?a=1" [("a", "1")] ""
            ["en"; "fr"]) /\
  getHandler (P := Reference.platform)
    (exampleCatalog [ruleA]) (exampleRequest "en" "/old" "?a=1")
    = Ok (Redirect "https://www.site.com/old?a=1" 301 "Moved Permanently").
Proof. repeat split; run. Qed.

(** C8, counterexample.  Both targets are absolute URLs for the test of
    line 102 and hold no token.  [//example.com/new], without scheme, is
    refused by the URL parser at line 103: no URL is returned and the
    request passes.  [https://example.com], without path, is read back
    with its path: the request is redirected to [https://example.com/],
    not to the target as written. *)
Lemma absolute_target_counterexample :
  (REGEXP_ABSOLUTE_URL_test (RedirectInfo.target ruleSchemeless) = true /\
   substituteSiteLang "www.site.com" {| name := "site"; language := "en" |}
     (RedirectInfo.target ruleSchemeless)
   = RedirectInfo.target ruleSchemeless /\
   getRedirects (P := Reference.platform)
     (exampleCatalog [ruleSchemeless]) (exampleRequest "en" "/old" "") "site"
   = Ok (Some (RedirectInfo.set_pattern ruleSchemeless "/^/old[/]?$/gi")) /\
   redirectUrl (P := Reference.platform)
     (exampleCatalog [ruleSchemeless]) (exampleRequest "en" "/old" "") "www.site.com"
     {| name := "site"; language := "en" |}
     (RedirectInfo.set_pattern ruleSchemeless "/^/old[/]?$/gi")
   = Throw TypeError /\
   getHandler (P := Reference.platform)
     (exampleCatalog [ruleSchemeless]) (exampleRequest "en" "/old" "")
   = Ok Pass) /\
  (REGEXP_ABSOLUTE_URL_test (RedirectInfo.target ruleBare) = true /\
   getRedirects (P := Reference.platform)
     (exampleCatalog [ruleBare]) (exampleRequest "en" "/old" "") "site"
   = Ok (Some (RedirectInfo.set_pattern ruleBare "/^/old[/]?$/gi")) /\
   getHandler (P := Reference.platform)
     (exampleCatalog [ruleBare]) (exampleRequest "en" "/old" "")
   = Ok (Redirect "https://example.com/" 301 "Moved Permanently") /\
   "https://example.com/" <> RedirectInfo.target ruleBare).
Proof. repeat split; try run. discriminate. Qed.

(** C8, as amended, on [ruleAbsolute], for a request to [/old?a=1] in the
    locale [fr]: the URL of the response is the target as written, and
    the response redirects to it. *)
Lemma absolute_target_witness :
  redirectUrl (P := Reference.platform)
    (exampleCatalog [ruleAbsolute]) (exampleRequest "fr" "/old" "?a=1") "www.site.com"
    {| name := "site"; language := "en" |}
    (RedirectInfo.set_pattern ruleAbsolute "/^/old[/]?$/gi")
  = Ok "https://example.com/new" /\
  getHandler (P := Reference.platform)
    (exampleCatalog [ruleAbsolute]) (exampleRequest "fr" "/old" "?a=1")
  = Ok (Redirect "https://example.com/new" 301 "Moved Permanently").
Proof.
  destruct (absolute_target (P := Reference.platform)
              (exampleCatalog [ruleAbsolute]) (exampleRequest "fr" "/old" "?a=1")
              (RedirectInfo.set_pattern ruleAbsolute "/^/old[/]?$/gi") eq_refl)
    as (_ & _ & Hverbatim & _).
  let u := ok_value (Reference.set_href (nextUrl (exampleRequest "fr" "/old" "?a=1"))
                       "https://example.com/new") in
  destruct (Hverbatim u) as [Hurl Hresponse].
  - run.
  - run.
  - run.
  - split; [exact Hurl|]. apply Hresponse; run.
Defined.

(** C9, counterexample.  The first segment of the target [/de/new] is one
    of the regions of the middleware, but the configuration of the URL of
    the request does not list [de]: the assignment of line 109 throws, no
    URL is computed, and the request passes.  The segment is not recorded
    as the locale and the target is not substituted. *)
Lemma locale_segment_counterexample :
  nth_error (Js.split "/" (RedirectInfo.target ruleGerman)) 1 = Some "de" /\
  Js.arrayIncludes (regions (wideCatalog [ruleGerman])) "de" = true /\
  getRedirects (P := Reference.platform)
    (wideCatalog [ruleGerman]) (exampleRequest "en" "/old" "") "site"
  = Ok (Some (RedirectInfo.set_pattern ruleGerman "/^/old[/]?$/gi")) /\
  rewriteUrl (P := Reference.platform)
    (wideCatalog [ruleGerman]) (exampleRequest "en" "/old" "")
    (RedirectInfo.set_pattern ruleGerman "/^/old[/]?$/gi") "/de/new"
  = Throw TypeError /\
  getHandler (P := Reference.platform)
    (wideCatalog [ruleGerman]) (exampleRequest "en" "/old" "")
  = Ok Pass.
Proof. repeat split; run. Qed.

(** C9, as amended, on [ruleLocale]: the target [/fr/new], whose first
    segment is a region that the URL accepts; the target [/de/new], whose
    first segment is no region of the middleware; and, for the middleware
    with the region [de], the target [/de/new] again, which the URL
    refuses. *)
Lemma locale_segment_witness :
  (exists a rest u,
      "/fr/new" = a ++ "/" ++ "fr" ++ rest /\
      rewriteUrl (P := Reference.platform) (exampleCatalog [ruleFr])
        (exampleRequest "en" "/old" "") ruleLocale "/fr/new" = Ok u /\
      NextURL.locale u = "fr" /\ NextURL.pathname u = "/new") /\
  (exists u,
      rewriteUrl (P := Reference.platform) (exampleCatalog [ruleFr])
        (exampleRequest "en" "/old" "") ruleLocale "/de/new" = Ok u /\
      NextURL.locale u = "en" /\ NextURL.pathname u = "/de/new") /\
  rewriteUrl (P := Reference.platform) (wideCatalog [ruleFr])
    (exampleRequest "en" "/old" "") ruleLocale "/de/new" = Throw TypeError.
Proof.
  split; [|split].
  - destruct (locale_segment (P := Reference.platform) (exampleCatalog [ruleFr])
                (exampleRequest "en" "/old" "") "site" ruleLocale "/fr/new"
                ltac:(run) eq_refl)
      as (re & _ & Hin & _).
    destruct (Hin "fr" eq_refl eq_refl) as (a & rest & Ht & _ & Hyes & _).
    destruct (Hyes ltac:(discriminate) eq_refl) as (v & u & _ & Hu & _ & Hl).
    exists a, rest, u. split; [exact Ht|]. split; [exact Hu|]. split; [exact Hl|].
    assert (Hv : rewriteUrl (P := Reference.platform) (exampleCatalog [ruleFr])
                   (exampleRequest "en" "/old" "") ruleLocale "/fr/new"
                 = Ok (NextURL.mk "https://www.site.com" "fr" "en" "/new" "" [] ""
                         ["en"; "fr"]))
      by run.
    rewrite Hv in Hu. injection Hu as <-. reflexivity.
  - destruct (locale_segment (P := Reference.platform) (exampleCatalog [ruleFr])
                (exampleRequest "en" "/old" "") "site" ruleLocale "/de/new"
                ltac:(run) eq_refl)
      as (re & _ & _ & Hout).
    destruct Hout as (u & Hu & _ & Hl).
    + intros p Hp. injection Hp as <-. reflexivity.
    + exists u. split; [exact Hu|]. split; [exact Hl|].
      assert (Hv : rewriteUrl (P := Reference.platform) (exampleCatalog [ruleFr])
                     (exampleRequest "en" "/old" "") ruleLocale "/de/new"
                   = Ok (NextURL.mk "https://www.site.com" "en" "en" "/de/new" "" [] ""
                           ["en"; "fr"]))
        by run.
      rewrite Hv in Hu. injection Hu as <-. reflexivity.
  - destruct (locale_segment (P := Reference.platform) (wideCatalog [ruleFr])
                (exampleRequest "en" "/old" "") "site" ruleLocale "/de/new"
                ltac:(run) eq_refl)
      as (re & _ & Hin & _).
    destruct (Hin "de" eq_refl eq_refl) as (a & rest & _ & _ & _ & Hno).
    apply Hno. right. reflexivity.
Defined.



(** X2 on [ruleQuery], whose pattern matches the path and query
    [/old?a=1]. *)
Lemma query_merge_witness :
  exists u,
    rewriteRelative (P := Reference.platform) (exampleCatalog [])
      (nextUrl (exampleRequest "en" "/old" "?a=1")) ruleQuery "/new?b=2" = Ok u /\
    NextURL.searchParams u = [("a", "1"); ("b", "2")].
Proof.
  let u := ok_value (rewriteRelative (P := Reference.platform) (exampleCatalog [])
                       (nextUrl (exampleRequest "en" "/old" "?a=1")) ruleQuery
                       "/new?b=2") in
  let re := ok_value (Reference.regexParser "/^/old\?a=1[/]?$/gi") in
  exists u; split;
    [run
    |rewrite (query_merge (P := Reference.platform) (exampleCatalog [])
                (nextUrl (exampleRequest "en" "/old" "?a=1")) ruleQuery "/new?b=2"
                re u reference_laws); run].
Defined.

(** X3 on a rule of type [NONE] whose pattern matches. *)
Lemma unrecognized_types_pass_witness :
  getHandler (P := Reference.platform)
    (exampleCatalog [RedirectInfo.mk "/old" "/new" "NONE" false None])
    (exampleRequest "en" "/old" "")
  = Ok Pass.
Proof.
  apply (unrecognized_types_pass (P := Reference.platform)
           (exampleCatalog [RedirectInfo.mk "/old" "/new" "NONE" false None])
           (exampleRequest "en" "/old" "")
           [RedirectInfo.mk "/old" "/new" "NONE" false None] eq_refl).
  constructor; [|constructor].
  repeat split; discriminate.
Defined.

(** * More properties of the middleware *)

(** ** Where a response comes from *)

Section Soundness.

Context {P : Platform}.

(** X1.  A response of the handler that is not [Pass] comes from a rule
    of the catalog: the middleware was not skipped, the store holds an
    array, one of its rules satisfies the match condition, the URL of the
    response was computed for it, and the response is the redirect (301
    or 302, with its status text) or the rewrite that the type of the rule
    asks for. *)
Theorem response_from_matching_rule (mw : Middleware) (req : NextRequest)
    (response : NextResponse) :
  getHandler mw req = Ok response ->
  response <> Pass ->
  skipped mw req = false /\
  exists catalog r p u,
    get mw (name (getSite mw req)) = ReadJsonArray catalog /\
    In r catalog /\
    ruleMatches mw req r = Ok true /\
    compilePattern (getLanguage mw req) (RedirectInfo.pattern r) = Ok p /\
    redirectUrl mw req (hostnameOf mw req) (getSite mw req)
      (RedirectInfo.set_pattern r p) = Ok u /\
    ((RedirectInfo.redirectType r = REDIRECT_TYPE_301 /\
      response = Redirect u 301 "Moved Permanently") \/
     (RedirectInfo.redirectType r = REDIRECT_TYPE_302 /\
      response = Redirect u 302 "Found") \/
     (RedirectInfo.redirectType r = REDIRECT_TYPE_SERVER_TRANSFER /\
      response = Rewrite u)).
Proof.
  intros Hresp Hnot.
  destruct (skipped mw req) eqn:Hskip.
  { unfold getHandler, edgeConfigHandler, createResponse in Hresp.
    rewrite Hskip in Hresp. injection Hresp as <-. now elim Hnot. }
  split; [reflexivity|].
  destruct (getRedirects mw req (name (getSite mw req))) as [[r'|]|e] eqn:Hfound.
  - rewrite (getHandler_found mw req r' Hskip Hfound) in Hresp.
    destruct (getRedirects_Some mw req _ r' Hfound)
      as (catalog & r & p & Hget & Hin & Hm & Hp & ->).
    destruct (redirectUrl mw req (hostnameOf mw req) (getSite mw req)
                (RedirectInfo.set_pattern r p)) as [u|e] eqn:Hu.
    + injection Hresp as <-. exists catalog, r, p, u.
      repeat (split; [assumption|]).
      change (RedirectInfo.redirectType (RedirectInfo.set_pattern r p))
        with (RedirectInfo.redirectType r) in *.
      unfold classify in *.
      destruct (String.eqb_spec (RedirectInfo.redirectType r) REDIRECT_TYPE_301);
        [now left|].
      destruct (String.eqb_spec (RedirectInfo.redirectType r) REDIRECT_TYPE_302);
        [right; now left|].
      destruct (String.eqb_spec (RedirectInfo.redirectType r)
                  REDIRECT_TYPE_SERVER_TRANSFER);
        [right; now right|].
      now elim Hnot.
    + injection Hresp as <-. now elim Hnot.
  - rewrite (getHandler_no_rule mw req (or_introl Hfound)) in Hresp.
    injection Hresp as <-. now elim Hnot.
  - rewrite (getHandler_no_rule mw req (or_intror (ex_intro _ e Hfound))) in Hresp.
    injection Hresp as <-. now elim Hnot.
Qed.

(** X4.  What [getRedirects] does on an array of rules: every rule is
    evaluated to no match and nothing is returned; or the first rule that
    is not evaluated to no match satisfies the match condition and is
    returned, with its pattern rewritten and its other fields as they
    are; or the evaluation of that first rule raises and [getRedirects]
    raises the same error. *)
Theorem getRedirects_decides (mw : Middleware) (req : NextRequest)
    (siteName : string) (catalog : list RedirectInfo.t) :
  get mw siteName = ReadJsonArray catalog ->
  (Forall (fun x => ruleMatches mw req x = Ok false) catalog /\
   getRedirects mw req siteName = Ok None)
  \/
  (exists l1 r l2 p,
      catalog = (l1 ++ r :: l2)%list /\
      Forall (fun x => ruleMatches mw req x = Ok false) l1 /\
      ruleMatches mw req r = Ok true /\
      compilePattern (getLanguage mw req) (RedirectInfo.pattern r) = Ok p /\
      getRedirects mw req siteName
        = Ok (Some (RedirectInfo.mk p (RedirectInfo.target r)
                      (RedirectInfo.redirectType r)
                      (RedirectInfo.isQueryStringPreserved r)
                      (RedirectInfo.locale r))))
  \/
  (exists l1 r l2 e,
      catalog = (l1 ++ r :: l2)%list /\
      Forall (fun x => ruleMatches mw req x = Ok false) l1 /\
      ruleMatches mw req r = Throw e /\
      getRedirects mw req siteName = Throw e).
Proof.
  intros Hget. rewrite (getRedirects_array mw req siteName catalog Hget).
  clear Hget. induction catalog as [|x l IH].
  - left. split; [constructor | reflexivity].
  - destruct (ruleMatches mw req x) as [[|]|e] eqn:Hx.
    + right. left.
      destruct (matchRedirect_of_ruleMatches mw req x true Hx) as (p & Hp & Hm).
      exists [], x, l, p. cbn [app find]. rewrite Hm.
      repeat split; (assumption || constructor).
    + destruct (matchRedirect_of_ruleMatches mw req x false Hx) as (p & Hp & Hm).
      assert (Hstep : find (matchRedirect (getLanguage mw req) req) (x :: l)
                      = find (matchRedirect (getLanguage mw req) req) l)
        by (cbn [find]; now rewrite Hm).
      rewrite Hstep.
      destruct IH as [[Hall Hnone] | [(l1 & r & l2 & q & -> & Hl1 & Hr & Hq & Hres)
                                     | (l1 & r & l2 & e & -> & Hl1 & Hr & Hres)]].
      * left. split; [now constructor | exact Hnone].
      * right. left. exists (x :: l1), r, l2, q.
        repeat split; try assumption. now constructor.
      * right. right. exists (x :: l1), r, l2, e.
        repeat split; try assumption. now constructor.
    + right. right. exists [], x, l, e. cbn [app find].
      rewrite (ruleMatches_raises mw req x e Hx).
      repeat split; (assumption || constructor).
Qed.

(** X5.  The match condition of a rule whose rewritten pattern is parsed:
    one at least of the four candidate strings is matched, whichever and
    in whatever order, and the locale filter passes. *)
Theorem match_condition (mw : Middleware) (req : NextRequest) (r : RedirectInfo.t)
    (p : string) (re : RegExp) :
  compilePattern (getLanguage mw req) (RedirectInfo.pattern r) = Ok p ->
  regexParser p = Ok re ->
  ruleMatches mw req r
  = Ok ((RegExp_test re (NextURL.pathname (nextUrl req))
         || RegExp_test re (NextURL.pathname (nextUrl req)
                            ++ NextURL.search (nextUrl req))
         || RegExp_test re ("/" ++ NextURL.locale (nextUrl req)
                            ++ NextURL.pathname (nextUrl req))
         || RegExp_test re ("/" ++ NextURL.locale (nextUrl req)
                            ++ NextURL.pathname (nextUrl req)
                            ++ NextURL.search (nextUrl req)))
        && localeFilter req r).
Proof.
  intros Hp Hre. rewrite ruleMatches_unfold. unfold patternMatches.
  rewrite Hp. cbn [bind].
  rewrite (testCandidates_parsed p re (candidates req) Hre). cbn [bind].
  unfold candidates. cbn [existsb]. rewrite orb_false_r, !orb_assoc. reflexivity.
Qed.

End Soundness.

(** ** The rewriting of the pattern *)

Lemma length_append (a b : string) :
  String.length (a ++ b) = String.length a + String.length b.
Proof. induction a as [|c a IH]; simpl; [reflexivity | now rewrite IH]. Qed.

Lemma stripSuffix_unfold (suf s : string) :
  Js.stripSuffix suf s =
  if String.eqb s suf then Some EmptyString
  else match s with
       | EmptyString => None
       | String c s' => option_map (String c) (Js.stripSuffix suf s')
       end.
Proof. destruct s; reflexivity. Qed.

Lemma stripSuffix_append (r b : string) : Js.stripSuffix b (r ++ b) = Some r.
Proof.
  induction r as [|c r IH]; rewrite stripSuffix_unfold.
  - cbn [append]. now rewrite String.eqb_refl.
  - destruct (String.eqb_spec (String c r ++ b) b) as [E|_].
    + apply (f_equal String.length) in E. rewrite length_append in E.
      simpl in E. lia.
    + cbn [append]. now rewrite IH.
Qed.

Lemma stripSuffix_Some (b s r : string) :
  Js.stripSuffix b s = Some r -> s = r ++ b.
Proof.
  revert r. induction s as [|c s IH]; intros r; rewrite stripSuffix_unfold.
  - destruct (String.eqb_spec "" b) as [<-|_]; intros H; [|discriminate].
    now injection H as <-.
  - destruct (String.eqb_spec (String c s) b) as [<-|_]; intros H.
    + now injection H as <-.
    + destruct (Js.stripSuffix b s) as [r'|]; [|discriminate].
      injection H as <-. cbn [append]. now rewrite (IH r' eq_refl).
Qed.

Lemma append_last_inj (x y : string) (c d : ascii) :
  x ++ String c "" = y ++ String d "" -> x = y /\ c = d.
Proof.
  revert y. induction x as [|a x IH]; intros [|b y] H; cbn [append] in H.
  - injection H as ->. auto.
  - injection H as -> H. destruct y; discriminate.
  - injection H as -> H. destruct x; discriminate.
  - injection H as -> H. destruct (IH y H) as [-> ->]. auto.
Qed.

(** A string is not stripped of a suffix whose last character is not
    its own. *)
Lemma stripSuffix_other_end (b x : string) (c d : ascii) :
  c <> d -> Js.stripSuffix (b ++ String d "") (x ++ String c "") = None.
Proof.
  intros Hcd. destruct (Js.stripSuffix _ _) as [r|] eqn:E; [|reflexivity].
  apply stripSuffix_Some in E. rewrite <- append_assoc in E.
  apply append_last_inj in E as [_ E]. contradiction.
Qed.

(** After a character that ends the suffix, the rest of the suffix is
    looked for in what comes before. *)
Lemma stripSuffix_same_end (b x : string) (c : ascii) :
  Js.stripSuffix b x = None ->
  Js.stripSuffix (b ++ String c "") (x ++ String c "") = None.
Proof.
  intros Hx. destruct (Js.stripSuffix (b ++ _) _) as [r|] eqn:E; [|reflexivity].
  apply stripSuffix_Some in E. rewrite <- append_assoc in E.
  apply append_last_inj in E as [-> _].
  rewrite stripSuffix_append in Hx. discriminate.
Qed.

Lemma stripEnds_both (a b s : string) : stripEnds a b (a ++ s ++ b) = s.
Proof.
  unfold stripEnds. now rewrite stripPrefix_append, stripSuffix_append.
Qed.

Lemma stripEnds_prefix (a b s : string) :
  Js.stripSuffix b s = None -> stripEnds a b (a ++ s) = s.
Proof. intros H. unfold stripEnds. now rewrite stripPrefix_append, H. Qed.

Lemma stripEnds_suffix (a b s : string) :
  Js.stripPrefix a (s ++ b) = None -> stripEnds a b (s ++ b) = s.
Proof. intros H. unfold stripEnds. now rewrite H, stripSuffix_append. Qed.

Lemma stripEnds_none (a b s : string) :
  Js.stripPrefix a s = None -> Js.stripSuffix b s = None -> stripEnds a b s = s.
Proof. intros H1 H2. unfold stripEnds. now rewrite H1, H2. Qed.

Lemma isNone_true {A : Type} (o : option A) : isNone o = true -> o = None.
Proof. destruct o; [discriminate | reflexivity]. Qed.

(** A prefix that starts with [c] is not found at the head of [s ++ t]
    when [s] does not start with [c] and [t] neither. *)
Lemma stripPrefix_head (c : ascii) (p s t : string) :
  Js.stripPrefix (String c "") s = None ->
  Js.stripPrefix (String c "") t = None ->
  Js.stripPrefix (String c p) (s ++ t) = None.
Proof.
  intros Hs Ht. destruct s as [|a s]; cbn [append].
  - destruct t as [|a t]; [reflexivity|]. cbn [Js.stripPrefix] in *.
    now destruct (Ascii.eqb c a).
  - cbn [Js.stripPrefix] in *. now destruct (Ascii.eqb c a).
Qed.

(** Lines 186-188 on the ways of writing a pattern around a body [s]
    with plain ends. *)
Lemma anchors_and_slashes (s : string) :
  plainEnds s = true ->
  let strip p :=
    stripEnds "^" "$" (stripEnds "^/" "/$" (stripEnds "/" "/" p)) in
  strip s = s /\ strip ("/" ++ s) = s /\ strip (s ++ "/") = s /\
  strip ("/" ++ s ++ "/") = s /\ strip ("^" ++ s ++ "$") = s /\
  strip ("^/" ++ s ++ "$") = s /\ strip ("^/" ++ s ++ "/$") = s.
Proof.
  unfold plainEnds. intros H.
  apply andb_true_iff in H as [H Hd]. apply andb_true_iff in H as [H Hs].
  apply andb_true_iff in H as [Hp Hc].
  apply isNone_true in Hp, Hc, Hs, Hd.
  assert (Hc2 : Js.stripPrefix "^/" s = None).
  { destruct s as [|a s]; [reflexivity|]. cbn [Js.stripPrefix] in *.
    now destruct (Ascii.eqb "^" a). }
  assert (Hd2 : Js.stripSuffix "/$" s = None).
  { destruct (Js.stripSuffix "/$" s) as [r|] eqn:E; [|reflexivity].
    apply stripSuffix_Some in E. subst s.
    change (r ++ "/$") with (r ++ "/" ++ "$") in Hd.
    rewrite <- append_assoc, stripSuffix_append in Hd. discriminate. }
  assert (Hbase : stripEnds "^" "$" (stripEnds "^/" "/$" s) = s).
  { now rewrite (stripEnds_none "^/" "/$" s Hc2 Hd2), (stripEnds_none "^" "$" s Hc Hd). }
  assert (Hdollar : Js.stripSuffix "/$" (s ++ "$") = None).
  { exact (stripSuffix_same_end "/" s "$" Hs). }
  cbv zeta. repeat split.
  - now rewrite (stripEnds_none "/" "/" s Hp Hs).
  - now rewrite (stripEnds_prefix "/" "/" s Hs).
  - destruct s as [|a s]; [reflexivity|].
    rewrite (stripEnds_suffix "/" "/" (String a s)); [exact Hbase|].
    cbn [append Js.stripPrefix] in *. now destruct (Ascii.eqb "/" a).
  - now rewrite (stripEnds_both "/" "/" s).
  - rewrite (stripEnds_none "/" "/" ("^" ++ s ++ "$")); [|reflexivity|].
    + rewrite (stripEnds_none "^/" "/$" ("^" ++ s ++ "$")).
      * exact (stripEnds_both "^" "$" s).
      * cbn [append Js.stripPrefix]. rewrite Ascii.eqb_refl.
        exact (stripPrefix_head "/" "" s "$" Hp eq_refl).
      * change ("^" ++ s ++ "$") with (("^" ++ s) ++ "$").
        apply (stripSuffix_same_end "/" ("^" ++ s) "$").
        destruct (Js.stripSuffix "/" ("^" ++ s)) as [r|] eqn:E; [|reflexivity].
        apply stripSuffix_Some in E. destruct r as [|a r]; [discriminate|].
        cbn [append] in E. injection E as <- E. subst s.
        rewrite stripSuffix_append in Hs. discriminate.
    + change ("^" ++ s ++ "$") with (("^" ++ s) ++ "$").
      apply (stripSuffix_other_end "" ("^" ++ s) "$" "/"). discriminate.
  - rewrite (stripEnds_none "/" "/" ("^/" ++ s ++ "$")); [|reflexivity|].
    + rewrite (stripEnds_prefix "^/" "/$" (s ++ "$") Hdollar).
      apply stripEnds_suffix.
      exact (stripPrefix_head "^" "" s "$" Hc eq_refl).
    + change ("^/" ++ s ++ "$") with (("^/" ++ s) ++ "$").
      apply (stripSuffix_other_end "" ("^/" ++ s) "$" "/"). discriminate.
  - rewrite (stripEnds_none "/" "/" ("^/" ++ s ++ "/$")); [|reflexivity|].
    + rewrite (stripEnds_both "^/" "/$" s).
      exact (stripEnds_none "^" "$" s Hc Hd).
    + replace ("^/" ++ s ++ "/$") with (("^/" ++ s ++ "/") ++ "$")
        by (cbn [append]; now rewrite append_assoc).
      apply (stripSuffix_other_end "" ("^/" ++ s ++ "/") "$" "/"). discriminate.
Qed.

(** Line 189 leaves no question mark without a backslash before it. *)
Lemma escapeQuestionMarks_escaped (prev : option ascii) (s : string) :
  hasBareQuestionMark prev (escapeQuestionMarks prev s) = false.
Proof.
  revert prev. induction s as [|c s IH]; intros prev; [reflexivity|].
  cbn [escapeQuestionMarks].
  destruct (Ascii.eqb c "?"
            && negb match prev with
                    | Some p => Ascii.eqb p "\"
                    | None => false
                    end) eqn:E.
  - apply andb_true_iff in E as [Ec _]. apply Ascii.eqb_eq in Ec. subst c.
    cbn [append hasBareQuestionMark]. rewrite (IH (Some "?"%char)).
    reflexivity.
  - cbn [append hasBareQuestionMark]. now rewrite E, (IH (Some c)).
Qed.

(** A text whose question marks all have their backslash is left as it
    is by line 189. *)
Lemma escapeQuestionMarks_fixed (prev : option ascii) (s : string) :
  hasBareQuestionMark prev s = false -> escapeQuestionMarks prev s = s.
Proof.
  revert prev. induction s as [|c s IH]; intros prev H; [reflexivity|].
  cbn [hasBareQuestionMark] in H. apply orb_false_iff in H as [Hc Hs].
  cbn [escapeQuestionMarks]. rewrite Hc, (IH (Some c) Hs). reflexivity.
Qed.

Lemma hasBareQuestionMark_prefix (prev : option ascii) (a b : string) :
  hasBareQuestionMark prev (a ++ b) = false -> hasBareQuestionMark prev a = false.
Proof.
  revert prev. induction a as [|c a IH]; intros prev H; [reflexivity|].
  cbn [append hasBareQuestionMark] in *.
  apply orb_false_iff in H as [Hc Ha]. now rewrite Hc, (IH (Some c) Ha).
Qed.

Lemma patternBody_escaped (pattern : string) :
  hasBareQuestionMark None (patternBody pattern) = false.
Proof.
  unfold patternBody.
  set (e := escapeQuestionMarks None _).
  assert (He : hasBareQuestionMark None e = false)
    by apply escapeQuestionMarks_escaped.
  unfold stripEnds. cbn [Js.stripPrefix].
  destruct (Js.stripSuffix "$/gi" e) as [r|] eqn:E; [|exact He].
  apply stripSuffix_Some in E. rewrite E in He.
  exact (hasBareQuestionMark_prefix None r "$/gi" He).
Qed.

Section PatternRewriting.

Context {P : Platform}.

(** Lines 184-190 in two steps: the language prefix is removed, and the
    rest is rewritten by [wrapPattern]. *)
Lemma compilePattern_wrap (language pattern : string) :
  compilePattern language pattern
  = (re <- RegExp_new ("^[^]?/" ++ language ++ "/") "gi" ;;
     Ok (wrapPattern (String_replace pattern re ""))).
Proof. reflexivity. Qed.

(** X6.  Whatever the pattern of a rule, the pattern the matcher parses
    is an expression literal anchored at both ends, with the flags [gi]
    and an optional slash at the end, in which every question mark has a
    backslash as the character right before it, and which line 189 would
    leave as it is.  This is a fact about the text only: line 189 looks
    at one character, and the backslash it finds may be the second
    character of an escaped backslash. *)
Theorem question_marks_escaped (language pattern p : string) :
  compilePattern language pattern = Ok p ->
  exists body,
    p = "/^/" ++ body ++ "[/]?$/gi" /\
    hasBareQuestionMark None body = false /\
    escapeQuestionMarks None body = body.
Proof.
  rewrite compilePattern_wrap.
  destruct (RegExp_new _ _) as [re|e]; cbn [bind]; intros H; [|discriminate].
  injection H as <-.
  exists (patternBody (String_replace pattern re "")).
  split; [reflexivity|].
  split; [apply patternBody_escaped|].
  apply escapeQuestionMarks_fixed, patternBody_escaped.
Qed.

(** X7.  A pattern may be written with or without a slash at each end,
    with or without the anchors [^] and [$]: for a body [s] with plain
    ends, the seven ways of writing it are rewritten to the same
    expression.  Line 184 is supposed to find no language prefix in the
    pattern. *)
Theorem pattern_normal_forms (language s v : string) (re : RegExp) :
  plainEnds s = true ->
  In v [ s; "/" ++ s; s ++ "/"; "/" ++ s ++ "/";
         "^" ++ s ++ "$"; "^/" ++ s ++ "$"; "^/" ++ s ++ "/$" ] ->
  RegExp_new ("^[^]?/" ++ language ++ "/") "gi" = Ok re ->
  String_replace v re "" = v ->
  compilePattern language v
  = Ok ("/^/" ++ stripEnds "" "$/gi" (escapeQuestionMarks None s) ++ "[/]?$/gi").
Proof.
  intros Hs Hv Hre Hsame. rewrite compilePattern_wrap, Hre. cbn [bind].
  rewrite Hsame. unfold wrapPattern, patternBody.
  destruct (anchors_and_slashes s Hs) as (H0 & H1 & H2 & H3 & H4 & H5 & H6).
  cbv zeta in *.
  destruct Hv as [<- | [<- | [<- | [<- | [<- | [<- | [<- | []]]]]]]].
  - now rewrite H0.
  - now rewrite H1.
  - now rewrite H2.
  - now rewrite H3.
  - now rewrite H4.
  - now rewrite H5.
  - now rewrite H6.
Qed.

End PatternRewriting.

(** ** Runs of the properties above *)

(** X1 on the catalog [ruleOther; ruleB] and a request to [/old]. *)
Lemma response_from_matching_rule_witness :
  skipped (exampleCatalog [ruleOther; ruleB]) (exampleRequest "en" "/old" "") = false /\
  exists catalog r p u,
    get (exampleCatalog [ruleOther; ruleB])
      (name (getSite (exampleCatalog [ruleOther; ruleB])
               (exampleRequest "en" "/old" "")))
    = ReadJsonArray catalog /\
    In r catalog /\
    ruleMatches (P := Reference.platform) (exampleCatalog [ruleOther; ruleB])
      (exampleRequest "en" "/old" "") r = Ok true /\
    compilePattern (P := Reference.platform)
      (getLanguage (exampleCatalog [ruleOther; ruleB]) (exampleRequest "en" "/old" ""))
      (RedirectInfo.pattern r) = Ok p /\
    redirectUrl (P := Reference.platform) (exampleCatalog [ruleOther; ruleB])
      (exampleRequest "en" "/old" "")
      (hostnameOf (exampleCatalog [ruleOther; ruleB]) (exampleRequest "en" "/old" ""))
      (getSite (exampleCatalog [ruleOther; ruleB]) (exampleRequest "en" "/old" ""))
      (RedirectInfo.set_pattern r p) = Ok u /\
    ((RedirectInfo.redirectType r = REDIRECT_TYPE_301 /\
      Redirect "https://www.site.com/new-b" 302 "Found"
      = Redirect u 301 "Moved Permanently") \/
     (RedirectInfo.redirectType r = REDIRECT_TYPE_302 /\
      Redirect "https://www.site.com/new-b" 302 "Found" = Redirect u 302 "Found") \/
     (RedirectInfo.redirectType r = REDIRECT_TYPE_SERVER_TRANSFER /\
      Redirect "https://www.site.com/new-b" 302 "Found" = Rewrite u)).
Proof.
  apply (response_from_matching_rule (P := Reference.platform)
           (exampleCatalog [ruleOther; ruleB]) (exampleRequest "en" "/old" "")
           (Redirect "https://www.site.com/new-b" 302 "Found")).
  - run.
  - discriminate.
Defined.

(** X4 on the catalog [ruleOther; ruleBroken; ruleB] and a request to
    [/old]. *)
Lemma getRedirects_decides_witness :
  (Forall (fun x => ruleMatches (P := Reference.platform)
                      (exampleCatalog [ruleOther; ruleBroken; ruleB])
                      (exampleRequest "en" "/old" "") x = Ok false)
     [ruleOther; ruleBroken; ruleB] /\
   getRedirects (P := Reference.platform)
     (exampleCatalog [ruleOther; ruleBroken; ruleB])
     (exampleRequest "en" "/old" "") "site" = Ok None)
  \/
  (exists l1 r l2 p,
      [ruleOther; ruleBroken; ruleB] = (l1 ++ r :: l2)%list /\
      Forall (fun x => ruleMatches (P := Reference.platform)
                         (exampleCatalog [ruleOther; ruleBroken; ruleB])
                         (exampleRequest "en" "/old" "") x = Ok false) l1 /\
      ruleMatches (P := Reference.platform)
        (exampleCatalog [ruleOther; ruleBroken; ruleB])
        (exampleRequest "en" "/old" "") r = Ok true /\
      compilePattern (P := Reference.platform)
        (getLanguage (exampleCatalog [ruleOther; ruleBroken; ruleB])
           (exampleRequest "en" "/old" ""))
        (RedirectInfo.pattern r) = Ok p /\
      getRedirects (P := Reference.platform)
        (exampleCatalog [ruleOther; ruleBroken; ruleB])
        (exampleRequest "en" "/old" "") "site"
      = Ok (Some (RedirectInfo.mk p (RedirectInfo.target r)
                    (RedirectInfo.redirectType r)
                    (RedirectInfo.isQueryStringPreserved r)
                    (RedirectInfo.locale r))))
  \/
  (exists l1 r l2 e,
      [ruleOther; ruleBroken; ruleB] = (l1 ++ r :: l2)%list /\
      Forall (fun x => ruleMatches (P := Reference.platform)
                         (exampleCatalog [ruleOther; ruleBroken; ruleB])
                         (exampleRequest "en" "/old" "") x = Ok false) l1 /\
      ruleMatches (P := Reference.platform)
        (exampleCatalog [ruleOther; ruleBroken; ruleB])
        (exampleRequest "en" "/old" "") r = Throw e /\
      getRedirects (P := Reference.platform)
        (exampleCatalog [ruleOther; ruleBroken; ruleB])
        (exampleRequest "en" "/old" "") "site" = Throw e).
Proof.
  apply (getRedirects_decides (P := Reference.platform)
           (exampleCatalog [ruleOther; ruleBroken; ruleB])
           (exampleRequest "en" "/old" "") "site"
           [ruleOther; ruleBroken; ruleB]).
  reflexivity.
Defined.

(** X5 on [ruleB] and a request to [/old?a=1] in the locale [fr]: the
    pattern matches the first candidate. *)
Lemma match_condition_witness :
  ruleMatches (P := Reference.platform)
    (exampleCatalog [ruleB]) (exampleRequest "fr" "/old" "?a=1") ruleB
  = Ok true.
Proof.
  let re := ok_value (Reference.regexParser "/^/old[/]?$/gi") in
  rewrite (match_condition (P := Reference.platform)
             (exampleCatalog [ruleB]) (exampleRequest "fr" "/old" "?a=1") ruleB
             "/^/old[/]?$/gi" re).
  - run.
  - run.
  - run.
Defined.

(** X6 on the pattern [/search?q=1]. *)
Lemma question_marks_escaped_witness :
  exists body,
    "/^/search\?q=1[/]?$/gi" = "/^/" ++ body ++ "[/]?$/gi" /\
    hasBareQuestionMark None body = false /\
    escapeQuestionMarks None body = body.
Proof.
  apply (question_marks_escaped (P := Reference.platform) "en" "/search?q=1").
  run.
Defined.

(** X7 on the body [old] written [^/old/$]. *)
Lemma pattern_normal_forms_witness :
  compilePattern (P := Reference.platform) "en" "^/old/$"
  = Ok ("/^/" ++ stripEnds "" "$/gi" (escapeQuestionMarks None "old") ++ "[/]?$/gi").
Proof.
  let re := ok_value (Reference.RegExp_new "^[^]?/en/" "gi") in
  apply (pattern_normal_forms (P := Reference.platform) "en" "old" "^/old/$" re).
  - reflexivity.
  - do 6 right. left. reflexivity.
  - run.
  - run.
Defined.

(** ** The [$siteLang] token *)

Lemma stripPrefixCi_append (tok post : string) :
  Js.stripPrefixCi (Js.lowerAsciiString tok) (tok ++ post) = Some post.
Proof.
  induction tok as [|c tok IH]; [reflexivity|].
  cbn [Js.lowerAsciiString append Js.stripPrefixCi].
  now rewrite Ascii.eqb_refl.
Qed.

Lemma substring_prefix (tok post : string) :
  substring 0 (String.length tok) (tok ++ post) = tok.
Proof.
  induction tok as [|c tok IH].
  - destruct post; reflexivity.
  - cbn [String.length append substring]. now rewrite IH.
Qed.

Lemma length_lowerAsciiString (s : string) :
  String.length (Js.lowerAsciiString s) = String.length s.
Proof. induction s as [|c s IH]; cbn; [reflexivity | now rewrite IH]. Qed.

Lemma siteLangSearch_unfold (before s : string) :
  siteLangSearch before s =
  match Js.stripPrefixCi "$sitelang" s with
  | Some after => Some (before, substring 0 9 s, after)
  | None =>
      match s with
      | EmptyString => None
      | String c s' => siteLangSearch (before ++ String c EmptyString) s'
      end
  end.
Proof. destruct s; reflexivity. Qed.

(** The first match of [/\$siteLang/i] behind a text without dollar
    sign. *)
Lemma siteLangSearch_first (acc pre tok post : string) :
  Js.hasChar "$" pre = false ->
  Js.lowerAsciiString tok = "$sitelang" ->
  siteLangSearch acc (pre ++ tok ++ post) = Some (acc ++ pre, tok, post).
Proof.
  intros Hpre Htok. revert acc.
  induction pre as [|c pre IH]; intros acc; rewrite siteLangSearch_unfold.
  - cbn [append].
    assert (E : Js.stripPrefixCi "$sitelang" (tok ++ post) = Some post)
      by (rewrite <- Htok; apply stripPrefixCi_append).
    rewrite E, append_empty_r.
    assert (Hlen : String.length tok = 9).
    { rewrite <- length_lowerAsciiString, Htok. reflexivity. }
    rewrite <- Hlen, substring_prefix. reflexivity.
  - cbn [Js.hasChar] in Hpre. apply orb_false_iff in Hpre as [Hc Hpre].
    cbn [append Js.stripPrefixCi].
    destruct (Ascii.eqb "$" (Js.lowerAscii c)) eqn:E.
    + apply lowerAscii_dollar in E. subst c. discriminate.
    + rewrite (IH Hpre), append_assoc. reflexivity.
Qed.

(** A replacement text without dollar sign is inserted as it is. *)
Lemma getSubstitution_plain (matched before after : string)
    (caps : list (option string)) (t : string) :
  Js.hasChar "$" t = false ->
  Js.getSubstitution matched before after caps t = t.
Proof.
  induction t as [|c t IH]; intros H; [reflexivity|].
  cbn [Js.hasChar] in H. apply orb_false_iff in H as [Hc Ht].
  cbn [Js.getSubstitution]. cbv zeta. rewrite Hc. cbn [negb].
  now rewrite (IH Ht).
Qed.

(** X8.  Lines 87-98 on a target that holds the token: the first
    [$siteLang], in whatever case it is written, is replaced by the
    language of the site, and the rest of the target, further tokens
    included, is kept.  The target is not an absolute URL that names the
    host of the request, and the language holds no dollar sign. *)
Theorem siteLang_first_token (hostname : string) (site : SiteInfo)
    (pre tok post : string) :
  Js.hasChar "$" pre = false ->
  Js.lowerAsciiString tok = "$sitelang" ->
  Js.hasChar "$" (language site) = false ->
  REGEXP_ABSOLUTE_URL_test (pre ++ tok ++ post)
  && Js.includes hostname (pre ++ tok ++ post) = false ->
  substituteSiteLang hostname site (pre ++ tok ++ post)
  = pre ++ language site ++ post.
Proof.
  intros Hpre Htok Hlang Hhost.
  unfold substituteSiteLang, REGEXP_CONTEXT_SITE_LANG_test,
    REGEXP_CONTEXT_SITE_LANG_replace.
  rewrite (siteLangSearch_first "" pre tok post Hpre Htok), Hhost.
  cbn [andb negb append].
  now rewrite (getSubstitution_plain tok pre post [] (language site) Hlang).
Qed.

(** X8 on the target [/$SiteLang/new/$siteLang]. *)
Lemma siteLang_first_token_witness :
  substituteSiteLang "www.site.com" {| name := "site"; language := "en" |}
    ("/" ++ "$SiteLang" ++ "/new/$siteLang")
  = "/" ++ "en" ++ "/new/$siteLang".
Proof.
  apply (siteLang_first_token "www.site.com" {| name := "site"; language := "en" |}
           "/" "$SiteLang" "/new/$siteLang").
  - reflexivity.
  - reflexivity.
  - reflexivity.
  - reflexivity.
Defined.

(** ** The URL built for a relative target *)

Lemma stripPrefix_Some (p s rest : string) :
  Js.stripPrefix p s = Some rest -> s = p ++ rest.
Proof.
  revert s. induction p as [|a p IH]; intros s H; cbn [Js.stripPrefix] in H.
  - now injection H as ->.
  - destruct s as [|b s]; [discriminate|].
    destruct (Ascii.eqb_spec a b) as [<-|_]; [|discriminate].
    cbn [append]. now rewrite (IH s H).
Qed.

Lemma hasChar_append (c : ascii) (a b : string) :
  Js.hasChar c (a ++ b) = Js.hasChar c a || Js.hasChar c b.
Proof.
  induction a as [|x a IH]; cbn [append Js.hasChar]; [reflexivity|].
  now rewrite IH, orb_assoc.
Qed.

Lemma collapse_keeps_absent (s : string) :
  Js.hasChar "?" s = false -> Js.hasChar "?" (collapseLeadingSlashes s) = false.
Proof.
  intros H. unfold collapseLeadingSlashes.
  destruct (Js.stripPrefix "//" s) as [rest|] eqn:E; [|exact H].
  apply stripPrefix_Some in E. subst s. exact H.
Qed.

Section RelativeTarget.

Context {P : Platform}.

Lemma fold_append_keeps (kvs : list (string * string)) (u : NextURL.t) :
  NextURL.origin (fold_left searchParams_append kvs u) = NextURL.origin u /\
  NextURL.defaultLocale (fold_left searchParams_append kvs u)
    = NextURL.defaultLocale u /\
  NextURL.hash (fold_left searchParams_append kvs u) = NextURL.hash u.
Proof.
  revert u. induction kvs as [|kv kvs IH]; intros u; cbn [fold_left].
  - auto.
  - destruct (IH (searchParams_append u kv)) as (-> & -> & ->). auto.
Qed.

Lemma assemble_keeps (url : NextURL.t) (pieces : list string) :
  NextURL.origin (assemble url pieces) = NextURL.origin url /\
  NextURL.defaultLocale (assemble url pieces) = NextURL.defaultLocale url /\
  NextURL.hash (assemble url pieces) = NextURL.hash url.
Proof.
  unfold assemble.
  destruct (nth_error pieces 1) as [q|]; [destruct (String.eqb q "")|];
    try (cbn; now auto).
  destruct (fold_append_keeps (URLSearchParams q)
              (set_pathname url (nth 0 pieces ""))) as (-> & -> & ->).
  auto.
Qed.

(** The locale that lines 107-111 leave is the one they found or one of
    the regions. *)
Lemma localeOverride_locale (regions : list string) (url v : NextURL.t)
    (target t : string) :
  localeOverride regions url target = Ok (v, t) ->
  NextURL.locale v = NextURL.locale url \/ In (NextURL.locale v) regions.
Proof.
  intros H.
  destruct (localeOverride_Ok regions url v target t H)
    as (_ & _ & _ & _ & _ & _ & [[_ ->] | (p & Hp & _ & ->)]).
  - now left.
  - right. destruct (proj1 (regionSegment_Some regions target p) Hp) as [_ E].
    unfold Js.arrayIncludes in E. apply existsb_exists in E as (x & Hx & Hpx).
    apply String.eqb_eq in Hpx. now subst x.
Qed.

(** X9.  The URL built for a relative target stays on the site of the
    request: origin, default locale and fragment are those of the
    request; the locale is the one of the request or one of the regions
    of the middleware; and the path holds no question mark. *)
Theorem relative_target_stays_on_site (mw : Middleware) (url : NextURL.t)
    (r : RedirectInfo.t) (target : string) (u : NextURL.t) :
  rewriteRelative mw url r target = Ok u ->
  NextURL.origin u = NextURL.origin url /\
  NextURL.defaultLocale u = NextURL.defaultLocale url /\
  NextURL.hash u = NextURL.hash url /\
  (NextURL.locale u = NextURL.locale url \/ In (NextURL.locale u) (regions mw)) /\
  Js.hasChar "?" (NextURL.pathname u) = false.
Proof.
  intros H.
  destruct (rewriteRelative_Ok mw url r target u H) as (v & re & Hlo & _ & ->).
  unfold substituteIn.
  set (pieces := Js.split "?" _).
  destruct (assemble_keeps v pieces) as (-> & -> & ->).
  destruct (assemble_fields v pieces) as (-> & -> & _).
  destruct (localeOverride_Ok _ _ _ _ _ Hlo) as (_ & -> & -> & -> & _).
  repeat (split; [reflexivity|]).
  split; [exact (localeOverride_locale _ _ _ _ _ Hlo)|].
  apply URL_pathname_no_query.
Qed.

(** X10.  When lines 105-123 have built the URL for a relative target
    from a substituted string that holds no question mark, [url.search]
    is the query of the request if the rule preserves the query string
    and empty otherwise, and [url.pathname] is what the setter of the
    pathname makes of the substituted string, a leading double slash
    collapsed. *)
Theorem query_kept_or_cleared (mw : Middleware) (url : NextURL.t)
    (r : RedirectInfo.t) (target : string) (re : RegExp) (u : NextURL.t) :
  regexParser (RedirectInfo.pattern r) = Ok re ->
  rewriteRelative mw url r target = Ok u ->
  Js.hasChar "?"
    (String_replace (NextURL.pathname url ++ NextURL.search url) re
       (strippedTarget (regions mw) target)) = false ->
  NextURL.search u
  = (if RedirectInfo.isQueryStringPreserved r then NextURL.search url else "") /\
  NextURL.pathname u
  = URL_pathname
      (collapseLeadingSlashes
         (String_replace (NextURL.pathname url ++ NextURL.search url) re
            (strippedTarget (regions mw) target))).
Proof.
  intros Hre Hu Hq.
  destruct (rewriteRelative_Ok mw url r target u Hu) as (v & re' & Hlo & Hre' & ->).
  rewrite Hre in Hre'. injection Hre' as <-.
  unfold substituteIn.
  rewrite (split_no_separator "?" _ (collapse_keeps_absent _ Hq)).
  unfold assemble, set_pathname.
  cbn [nth_error nth NextURL.search NextURL.pathname].
  split; [|reflexivity].
  now destruct (localeOverride_Ok _ _ _ _ _ Hlo) as (_ & _ & _ & _ & -> & _).
Qed.

End RelativeTarget.

(** X9 on the rule [ruleLocale] and a request to [/old]. *)
Lemma relative_target_stays_on_site_witness :
  exists u,
    rewriteRelative (P := Reference.platform) (exampleCatalog [ruleFr])
      (nextUrl (exampleRequest "en" "/old" "")) ruleLocale "/fr/new" = Ok u /\
    NextURL.origin u = "https://www.site.com" /\
    NextURL.defaultLocale u = "en" /\
    NextURL.hash u = "" /\
    (NextURL.locale u = "en" \/ In (NextURL.locale u) ["en"; "fr"]) /\
    Js.hasChar "?" (NextURL.pathname u) = false.
Proof.
  let u := ok_value (rewriteRelative (P := Reference.platform) (exampleCatalog [ruleFr])
                       (nextUrl (exampleRequest "en" "/old" "")) ruleLocale "/fr/new") in
  exists u; split;
    [run
    |apply (relative_target_stays_on_site (P := Reference.platform)
              (exampleCatalog [ruleFr]) (nextUrl (exampleRequest "en" "/old" ""))
              ruleLocale "/fr/new" u); run].
Defined.

(** X10 on a rule that preserves the query string and whose pattern
    covers the query of the request. *)
Lemma query_kept_or_cleared_witness :
  exists u,
    rewriteRelative (P := Reference.platform) (exampleCatalog [])
      (nextUrl (exampleRequest "en" "/old" "?a=1"))
      (RedirectInfo.mk "/^/old.*[/]?$/gi" "/new" REDIRECT_TYPE_301 true None) "/new"
    = Ok u /\
    NextURL.search u = "?a=1" /\
    NextURL.pathname u = "/new".
Proof.
  let u := ok_value (rewriteRelative (P := Reference.platform) (exampleCatalog [])
                       (nextUrl (exampleRequest "en" "/old" "?a=1"))
                       (RedirectInfo.mk "/^/old.*[/]?$/gi" "/new" REDIRECT_TYPE_301
                          true None) "/new") in
  let re := ok_value (Reference.regexParser "/^/old.*[/]?$/gi") in
  exists u; split; [run|];
  destruct (query_kept_or_cleared (P := Reference.platform) (exampleCatalog [])
              (nextUrl (exampleRequest "en" "/old" "?a=1"))
              (RedirectInfo.mk "/^/old.*[/]?$/gi" "/new" REDIRECT_TYPE_301 true None)
              "/new" re u) as [Hs Hp].
  - run.
  - run.
  - run.
  - split; [exact Hs|]. rewrite Hp. run.
Defined.

(** * The publish handler *)

Section PublishFacts.

Variables Redirect Json : Type.
Variable w : Publish.World Redirect Json.

Lemma handler_configured (env : Publish.Env) (appName endpoint token : string) :
  configured env appName endpoint token ->
  Publish.handler w env = Publish.publish w appName endpoint token.
Proof.
  intros (Ha & He & Ht & Hna & Hne & Hnt). unfold Publish.handler.
  rewrite Ha, He, Ht. unfold Publish.unset.
  apply String.eqb_neq in Hna, Hne, Hnt. now rewrite Hna, Hne, Hnt.
Qed.

Lemma unset_false (v : option string) :
  Publish.unset v = false -> exists s, v = Some s /\ s <> "".
Proof.
  destruct v as [s|]; [|discriminate]. cbn. intros H.
  exists s. split; [reflexivity|]. now apply String.eqb_neq.
Qed.

Lemma handler_cases (env : Publish.Env) :
  (Publish.unset (Publish.JSS_APP_NAME env)
   || Publish.unset (Publish.EDGE_CONFIG_ENDPOINT env)
   || Publish.unset (Publish.EDGE_CONFIG_VERCEL_TOKEN env) = true /\
   Publish.handler w env = Publish.notConfigured w)
  \/
  (exists appName endpoint token,
      configured env appName endpoint token /\
      Publish.handler w env = Publish.publish w appName endpoint token).
Proof.
  destruct (Publish.unset (Publish.JSS_APP_NAME env)
            || Publish.unset (Publish.EDGE_CONFIG_ENDPOINT env)
            || Publish.unset (Publish.EDGE_CONFIG_VERCEL_TOKEN env)) eqn:E.
  - left. split; [reflexivity|]. unfold Publish.handler. now rewrite E.
  - right. apply orb_false_iff in E as [E Ht]. apply orb_false_iff in E as [Ha He].
    destruct (unset_false _ Ha) as (a & Ha' & Hna).
    destruct (unset_false _ He) as (e & He' & Hne).
    destruct (unset_false _ Ht) as (t & Ht' & Hnt).
    exists a, e, t.
    assert (Hc : configured env a e t) by (unfold configured; auto 7).
    split; [exact Hc | exact (handler_configured env a e t Hc)].
Qed.

(** X11.  When one of the three variables of the environment is missing
    or empty, the client is answered 500 with the error of line 14 and no
    service is called. *)
Theorem publish_not_configured (env : Publish.Env) :
  Publish.unset (Publish.JSS_APP_NAME env)
  || Publish.unset (Publish.EDGE_CONFIG_ENDPOINT env)
  || Publish.unset (Publish.EDGE_CONFIG_VERCEL_TOKEN env) = true ->
  Publish.handler w env (Publish.fresh Json)
  = (Publish.Returned tt,
     {| Publish.statusCode := 500;
        Publish.sent :=
          Some (500%Z,
                Publish.ErrorBody
                  "Environment variables for Edge Config redirects are not set");
        Publish.trace := [] |}).
Proof.
  intros H. unfold Publish.handler. rewrite H. reflexivity.
Qed.

(** X12.  With redirects to publish, one request is sent to the store:
    a PATCH to the endpoint, authorised by the token, whose single item
    upserts the serialised redirects under the name of the application.
    Whatever the status of the reply, its body is passed on to the client
    with the status 200: the handler does not look at [ok] or [status]. *)
Theorem publish_passes_reply_on (env : Publish.Env) (appName endpoint token : string)
    (redirects : list Redirect) (reply : Publish.Reply Json) (j : Json) :
  configured env appName endpoint token ->
  Publish.fetchRedirects w appName = Some redirects ->
  redirects <> [] ->
  Publish.fetch w
    {| Publish.url := endpoint;
       Publish.method := "PATCH";
       Publish.headers := [ ("Authorization", "Bearer " ++ token);
                            ("Content-Type", "application/json") ];
       Publish.body :=
         Publish.JSON_stringify_items w
           [ {| Publish.operation := "upsert";
                Publish.key := appName;
                Publish.value := Publish.JSON_stringify w redirects |} ] |}
  = Some reply ->
  Publish.json reply = Some j ->
  Publish.handler w env (Publish.fresh Json)
  = (Publish.Returned tt,
     {| Publish.statusCode := 200;
        Publish.sent := Some (200%Z, Publish.ResultBody j);
        Publish.trace :=
          [ Publish.CallFetchRedirects appName;
            Publish.CallFetch
              (Publish.updateRequest w appName endpoint token redirects) ] |}).
Proof.
  intros Hc Hr Hne Hf Hj. rewrite (handler_configured env appName endpoint token Hc).
  fold (Publish.items w appName redirects) in Hf.
  fold (Publish.updateRequest w appName endpoint token redirects) in Hf.
  destruct redirects as [|x l]; [contradiction|].
  publish_steps. rewrite Hr. publish_steps. rewrite Hf. publish_steps.
  rewrite Hj. reflexivity.
Qed.

(** X13.  With no redirect to publish, the client is answered 200 with
    the message of line 27, and the handler goes on: the store is still
    sent the request, which replaces the catalog of the application by
    the empty one, and a second body is sent on the response, whatever
    the store replies.  The handler ends normally only if the response
    object ignores the second body. *)
Theorem publish_empty_catalog (env : Publish.Env) (appName endpoint token : string) :
  configured env appName endpoint token ->
  Publish.fetchRedirects w appName = Some [] ->
  Publish.sent (snd (Publish.handler w env (Publish.fresh Json)))
  = Some (200%Z, Publish.MessageBody "No redirects present") /\
  Publish.fetchCalls (Publish.trace (snd (Publish.handler w env (Publish.fresh Json))))
  = [ Publish.updateRequest w appName endpoint token [] ] /\
  fst (Publish.handler w env (Publish.fresh Json))
  = (if Publish.sendAgainRaises w
     then Publish.Raised Publish.HeadersSent
     else Publish.Returned tt).
Proof.
  intros Hc Hr. rewrite (handler_configured env appName endpoint token Hc).
  publish_steps. rewrite Hr. publish_steps.
  destruct (Publish.fetch w (Publish.updateRequest w appName endpoint token []))
    as [reply|]; publish_steps.
  - destruct (Publish.json reply) as [j|]; publish_steps;
      destruct (Publish.sendAgainRaises w); publish_steps; auto.
  - destruct (Publish.sendAgainRaises w); publish_steps; auto.
Qed.

(** X14.  When the redirects service fails, the handler fails with it:
    nothing is sent to the client by the handler and the store is not
    touched. *)
Theorem publish_source_failure (env : Publish.Env) (appName endpoint token : string) :
  configured env appName endpoint token ->
  Publish.fetchRedirects w appName = None ->
  Publish.handler w env (Publish.fresh Json)
  = (Publish.Raised Publish.FetchRedirectsRejected,
     {| Publish.statusCode := 200;
        Publish.sent := None;
        Publish.trace := [ Publish.CallFetchRedirects appName ] |}).
Proof.
  intros Hc Hr. rewrite (handler_configured env appName endpoint token Hc).
  publish_steps. rewrite Hr. reflexivity.
Qed.

(** X15.  With redirects to publish, when the request to the store fails
    or its reply is not JSON, the failure is logged and the client is
    answered 500 with the error of line 53; the handler ends normally. *)
Theorem publish_update_failure (env : Publish.Env) (appName endpoint token : string)
    (redirects : list Redirect) :
  configured env appName endpoint token ->
  Publish.fetchRedirects w appName = Some redirects ->
  redirects <> [] ->
  Publish.fetch w (Publish.updateRequest w appName endpoint token redirects) = None \/
  (exists reply,
      Publish.fetch w (Publish.updateRequest w appName endpoint token redirects)
      = Some reply /\
      Publish.json reply = None) ->
  exists e,
    Publish.handler w env (Publish.fresh Json)
    = (Publish.Returned tt,
       {| Publish.statusCode := 500;
          Publish.sent := Some (500%Z, Publish.ErrorBody "Error updating Edge Config");
          Publish.trace :=
            [ Publish.CallFetchRedirects appName;
              Publish.CallFetch
                (Publish.updateRequest w appName endpoint token redirects);
              Publish.ConsoleError e ] |}).
Proof.
  intros Hc Hr Hne Hf. rewrite (handler_configured env appName endpoint token Hc).
  destruct redirects as [|x l]; [contradiction|].
  destruct Hf as [Hf | (reply & Hf & Hj)].
  - exists Publish.FetchRejected.
    publish_steps. rewrite Hr. publish_steps. rewrite Hf. reflexivity.
  - exists Publish.JsonRejected.
    publish_steps. rewrite Hr. publish_steps. rewrite Hf. publish_steps.
    rewrite Hj. reflexivity.
Qed.

(** X16.  In every run the store is sent at most one request, after the
    redirects were read, and it is the upsert of what was read under the
    name of the application; the client is sent nothing only when the
    redirects service fails, and is otherwise answered 200 or 500. *)
Theorem publish_invariants (env : Publish.Env) :
  (Publish.fetchCalls (Publish.trace (snd (Publish.handler w env (Publish.fresh Json))))
   = []
   \/
   exists appName endpoint token redirects,
     configured env appName endpoint token /\
     Publish.fetchRedirects w appName = Some redirects /\
     Publish.fetchCalls
       (Publish.trace (snd (Publish.handler w env (Publish.fresh Json))))
     = [ Publish.updateRequest w appName endpoint token redirects ])
  /\
  match Publish.sent (snd (Publish.handler w env (Publish.fresh Json))) with
  | Some (code, _) => code = 200%Z \/ code = 500%Z
  | None =>
      exists appName endpoint token,
        configured env appName endpoint token /\
        Publish.fetchRedirects w appName = None
  end.
Proof.
  destruct (handler_cases env) as [[_ ->] | (a & e & t & Hc & ->)].
  - split; [left; reflexivity | right; reflexivity].
  - publish_steps.
    destruct (Publish.fetchRedirects w a) as [redirects|] eqn:Hr; publish_steps.
    + assert (Hex : forall calls,
                 calls = [Publish.updateRequest w a e t redirects] ->
                 calls = [] \/
                 exists appName endpoint token redirects0,
                   configured env appName endpoint token /\
                   Publish.fetchRedirects w appName = Some redirects0 /\
                   calls
                   = [Publish.updateRequest w appName endpoint token redirects0]).
      { intros calls Hs. right. exists a, e, t, redirects. auto. }
      destruct redirects as [|x l]; publish_steps;
        (destruct (Publish.fetch w _) as [reply|]; publish_steps;
         [destruct (Publish.json reply) as [j|]; publish_steps|]);
        try (destruct (Publish.sendAgainRaises w); publish_steps);
        (split; [apply Hex; reflexivity | auto]).
    + split; [left; reflexivity|]. exists a, e, t. auto.
Qed.

End PublishFacts.

(** ** Runs of the publish handler *)

(** X11 without the token. *)
Lemma publish_not_configured_witness :
  Publish.handler (Publish.exampleWorld [1; 2] None true)
    {| Publish.JSS_APP_NAME := Some "site";
       Publish.EDGE_CONFIG_ENDPOINT := Some "https://api.vercel.com/v1/edge-config/ecfg_1/items";
       Publish.EDGE_CONFIG_VERCEL_TOKEN := None |}
    (Publish.fresh string)
  = (Publish.Returned tt,
     {| Publish.statusCode := 500;
        Publish.sent :=
          Some (500%Z,
                Publish.ErrorBody
                  "Environment variables for Edge Config redirects are not set");
        Publish.trace := [] |}).
Proof.
  apply (publish_not_configured nat string (Publish.exampleWorld [1; 2] None true)).
  reflexivity.
Defined.

(** X12 on a store that answers 403 with a JSON body. *)
Lemma publish_passes_reply_on_witness :
  Publish.handler
    (Publish.exampleWorld [1; 2]
       (Some {| Publish.ok := false; Publish.status := 403;
                Publish.json := Some "forbidden" |}) true)
    Publish.exampleEnv (Publish.fresh string)
  = (Publish.Returned tt,
     {| Publish.statusCode := 200;
        Publish.sent := Some (200%Z, Publish.ResultBody "forbidden");
        Publish.trace :=
          [ Publish.CallFetchRedirects "site";
            Publish.CallFetch
              (Publish.updateRequest
                 (Publish.exampleWorld [1; 2]
                    (Some {| Publish.ok := false; Publish.status := 403;
                             Publish.json := Some "forbidden" |}) true)
                 "site" "https://api.vercel.com/v1/edge-config/ecfg_1/items"
                 "secret" [1; 2]) ] |}).
Proof.
  apply (publish_passes_reply_on nat string
           (Publish.exampleWorld [1; 2]
              (Some {| Publish.ok := false; Publish.status := 403;
                       Publish.json := Some "forbidden" |}) true)
           Publish.exampleEnv "site"
           "https://api.vercel.com/v1/edge-config/ecfg_1/items" "secret" [1; 2]
           {| Publish.ok := false; Publish.status := 403;
              Publish.json := Some "forbidden" |} "forbidden").
  - unfold configured. repeat split; (reflexivity || discriminate).
  - reflexivity.
  - discriminate.
  - reflexivity.
  - reflexivity.
Defined.

(** X13 on a response object that throws at the second body. *)
Lemma publish_empty_catalog_witness :
  Publish.sent
    (snd (Publish.handler
            (Publish.exampleWorld []
               (Some {| Publish.ok := true; Publish.status := 200;
                        Publish.json := Some "ok" |}) true)
            Publish.exampleEnv (Publish.fresh string)))
  = Some (200%Z, Publish.MessageBody "No redirects present") /\
  Publish.fetchCalls
    (Publish.trace
       (snd (Publish.handler
               (Publish.exampleWorld []
                  (Some {| Publish.ok := true; Publish.status := 200;
                           Publish.json := Some "ok" |}) true)
               Publish.exampleEnv (Publish.fresh string))))
  = [ Publish.updateRequest
        (Publish.exampleWorld []
           (Some {| Publish.ok := true; Publish.status := 200;
                    Publish.json := Some "ok" |}) true)
        "site" "https://api.vercel.com/v1/edge-config/ecfg_1/items" "secret" [] ] /\
  fst (Publish.handler
         (Publish.exampleWorld []
            (Some {| Publish.ok := true; Publish.status := 200;
                     Publish.json := Some "ok" |}) true)
         Publish.exampleEnv (Publish.fresh string))
  = Publish.Raised Publish.HeadersSent.
Proof.
  apply (publish_empty_catalog nat string
           (Publish.exampleWorld []
              (Some {| Publish.ok := true; Publish.status := 200;
                       Publish.json := Some "ok" |}) true)
           Publish.exampleEnv "site"
           "https://api.vercel.com/v1/edge-config/ecfg_1/items" "secret").
  - unfold configured. repeat split; (reflexivity || discriminate).
  - reflexivity.
Defined.

(** X14 for an application the redirects service does not know. *)
Lemma publish_source_failure_witness :
  Publish.handler (Publish.exampleWorld [1; 2] None true)
    {| Publish.JSS_APP_NAME := Some "other";
       Publish.EDGE_CONFIG_ENDPOINT := Some "https://api.vercel.com/v1/edge-config/ecfg_1/items";
       Publish.EDGE_CONFIG_VERCEL_TOKEN := Some "secret" |}
    (Publish.fresh string)
  = (Publish.Raised Publish.FetchRedirectsRejected,
     {| Publish.statusCode := 200;
        Publish.sent := None;
        Publish.trace := [ Publish.CallFetchRedirects "other" ] |}).
Proof.
  apply (publish_source_failure nat string (Publish.exampleWorld [1; 2] None true)
           {| Publish.JSS_APP_NAME := Some "other";
              Publish.EDGE_CONFIG_ENDPOINT :=
                Some "https://api.vercel.com/v1/edge-config/ecfg_1/items";
              Publish.EDGE_CONFIG_VERCEL_TOKEN := Some "secret" |}
           "other" "https://api.vercel.com/v1/edge-config/ecfg_1/items" "secret").
  - unfold configured. repeat split; (reflexivity || discriminate).
  - reflexivity.
Defined.

(** X15 on a store that cannot be reached. *)
Lemma publish_update_failure_witness :
  exists e,
    Publish.handler (Publish.exampleWorld [1] None false)
      Publish.exampleEnv (Publish.fresh string)
    = (Publish.Returned tt,
       {| Publish.statusCode := 500;
          Publish.sent := Some (500%Z, Publish.ErrorBody "Error updating Edge Config");
          Publish.trace :=
            [ Publish.CallFetchRedirects "site";
              Publish.CallFetch
                (Publish.updateRequest (Publish.exampleWorld [1] None false)
                   "site" "https://api.vercel.com/v1/edge-config/ecfg_1/items"
                   "secret" [1]);
              Publish.ConsoleError e ] |}).
Proof.
  apply (publish_update_failure nat string (Publish.exampleWorld [1] None false)
           Publish.exampleEnv "site"
           "https://api.vercel.com/v1/edge-config/ecfg_1/items" "secret" [1]).
  - unfold configured. repeat split; (reflexivity || discriminate).
  - reflexivity.
  - discriminate.
  - left. reflexivity.
Defined.

(** * The switches of the middleware *)

Section Switches.

Context {P : Platform}.

(** X17.  A request that the middleware is told to leave alone (the
    middleware is disabled for it, it is a preview request, or its route
    is excluded) passes whatever the store holds: a store that cannot be
    read or holds a broken catalog makes no difference. *)
Theorem skipped_request_passes (mw : Middleware) (req : NextRequest)
    (item : EdgeConfigRead) :
  skipped mw req = true ->
  getHandler (withCatalog mw item) req = Ok Pass.
Proof.
  intros H. unfold getHandler, edgeConfigHandler, createResponse.
  change (skipped (withCatalog mw item) req) with (skipped mw req).
  now rewrite H.
Qed.

End Switches.

(** X17 on a preview request and a store that cannot be read. *)
Lemma skipped_request_passes_witness :
  getHandler (P := Reference.platform)
    (withCatalog
       {| regions := ["en"];
          config_disabled := None;
          isPreview := fun _ => true;
          excludeRoute := fun _ => false;
          getLanguage := fun req => NextURL.locale (nextUrl req);
          getHostHeader := fun _ => None;
          defaultHostname := "localhost";
          getSite := fun _ => {| name := "site"; language := "en" |};
          get := fun _ => ReadJsonArray [ruleA] |}
       ReadRejected)
    (exampleRequest "en" "/old" "")
  = Ok Pass.
Proof.
  apply (skipped_request_passes (P := Reference.platform)).
  reflexivity.
Defined.
